(** * akaoio/geo: the hierarchy builder of [transform.js]

    A shallow embedding of the functions of [transform.js] that turn one
    country's GeoNames dump into a forest of nodes, and of
    [parseCountryCodes] of [download.js], with the properties of the
    written specification checked against them and further properties
    read off the code.

    Modelling conventions.
    - A JavaScript string is a [string] holding the bytes of its UTF-8
      encoding, the encoding the program reads its files in (well-formed
      UTF-8 is assumed).  The string operations the program uses are
      template concatenation, [split], [startsWith], [endsWith],
      [includes], [trim] and the truthiness test (the empty string is
      falsy).
    - A plain JavaScript object used as a dictionary
      ([FEATURE_LEVELS], [locationsByAdminCode], [childrenMap]) is a finite
      map over its own properties, a [gmap string _].  The keys of the
      index hold a dot and are never names of properties inherited from
      [Object.prototype]; the keys of the children map are ids, which are
      not such names when ids are strings of digits.
      A feature code can be such a name: [getAdminLevel],
      [determineParent] and [determineParentForLocation] below are the
      code on the own properties of [FEATURE_LEVELS], and the module [Js]
      gives the same three functions with the inherited properties too;
      the two agree on every feature code that is not inherited
      ([Js_getAdminLevel_agrees], [Js_determineParentForLocation_agrees]).
    - The exceptions caught by the [try] block of [processCountryZip]
      (a file name the file system refuses, for one) are outside the
      model.
    - [null] and [undefined] are [None].
    - The data directory is a finite map from the file stem (the part of
      the file name before [.json]) to the JSON object stored there. *)

From stdpp Require Import base strings gmap list.
From Stdlib Require Import Ascii.

(** ** Records *)

(** The object built by [parseCountryInfo] for one row of countryInfo.txt. *)
Module Country.
Record t : Type := mk {
  iso : string;
  iso3 : string;
  isoNumeric : string;
  fips : string;
  name : string;
  capital : string;
  area : string;
  population : string;
  continent : string;
  tld : string;
  currencyCode : string;
  currencyName : string;
  phone : string;
  postalCodeFormat : string;
  postalCodeRegex : string;
  languages : string;
  geonameid : string;
  neighbours : string;
  equivalentFipsCode : string
}.
End Country.

(** The object built by [parseGeonamesLine] for one line of a country file. *)
Record Location : Type := mkLocation {
  geonameid : string;
  name : string;
  asciiname : string;
  alternatenames : string;
  latitude : string;
  longitude : string;
  featureClass : string;
  featureCode : string;
  countryCode : string;
  cc2 : string;
  admin1Code : string;
  admin2Code : string;
  admin3Code : string;
  admin4Code : string;
  population : string;
  elevation : string;
  dem : string;
  timezone : string;
  modificationDate : string
}.

(** ** JavaScript truthiness of strings *)

Definition truthy (s : string) : bool :=
  match s with
  | EmptyString => false
  | String _ _ => true
  end.

(** ** Feature code to level mapping *)

Definition FEATURE_LEVELS : gmap string nat :=
  {[ "PCLI" := 0; "ADM1" := 1; "ADM2" := 2;
     "ADM3" := 3; "ADM4" := 4; "ADM5" := 5 ]}.

(** [FEATURE_LEVELS[code] !== undefined] *)
Definition isAdminFeature (code : string) : bool :=
  match FEATURE_LEVELS !! code with
  | Some _ => true
  | None => false
  end.

(** ** getAdminLevel *)

Definition getAdminLevel (location : Location) : nat :=
  match FEATURE_LEVELS !! featureCode location with
  | Some level => level
  | None =>
      if truthy (admin4Code location) then 5
      else if truthy (admin3Code location) then 4
      else if truthy (admin2Code location) then 3
      else if truthy (admin1Code location) then 2
      else 1
  end.

(** ** Composite keys

    The template literals [`${countryCode}.${admin1Code}`] and so on, one
    definition per number of admin segments. *)

Definition key1 (l : Location) : string :=
  countryCode l +:+ "." +:+ admin1Code l.
Definition key2 (l : Location) : string :=
  countryCode l +:+ "." +:+ admin1Code l +:+ "." +:+ admin2Code l.
Definition key3 (l : Location) : string :=
  countryCode l +:+ "." +:+ admin1Code l +:+ "." +:+ admin2Code l
    +:+ "." +:+ admin3Code l.
Definition key4 (l : Location) : string :=
  countryCode l +:+ "." +:+ admin1Code l +:+ "." +:+ admin2Code l
    +:+ "." +:+ admin3Code l +:+ "." +:+ admin4Code l.

(** The key with [n] admin segments, for statements that range over the
    number of segments. *)
Definition adminKey (l : Location) (n : nat) : string :=
  match n with
  | 1 => key1 l
  | 2 => key2 l
  | 3 => key3 l
  | 4 => key4 l
  | _ => countryCode l
  end.

(** [admin1Code && ... && admin<n>Code]: the first [n] admin columns are
    all populated. *)
Definition populated (l : Location) (n : nat) : bool :=
  match n with
  | 0 => true
  | 1 => truthy (admin1Code l)
  | 2 => truthy (admin1Code l) && truthy (admin2Code l)
  | 3 => truthy (admin1Code l) && truthy (admin2Code l)
         && truthy (admin3Code l)
  | 4 => truthy (admin1Code l) && truthy (admin2Code l)
         && truthy (admin3Code l) && truthy (admin4Code l)
  | _ => false
  end.

(** ** Index reads

    The parent resolver reads the index [locationsByAdminCode] and returns
    early on the first hit.  A computation of type [Lookup A] is given the
    index and yields its result together with the keys it looked up, in
    order.  The statement [if (index[key]) return index[key];] consults one
    key, which is logged once: the log lists the keys consulted, not the
    property reads (on a hit the code evaluates [index[key]] a second time
    for the value it returns). *)

Abbreviation Index := (gmap string string).
(** A returned parent: a string or [null]. *)
Abbreviation Parent := (option string).

Definition Lookup (A : Type) : Type := Index → A * list string.

Definition ret {A} (a : A) : Lookup A := λ _, (a, []).

(** [if (guard) { if (index[key]) return index[key]; } rest] *)
Definition tryKey (guard : bool) (key : string) (rest : Lookup Parent)
    : Lookup Parent :=
  λ index,
    if guard then
      match index !! key with
      | Some id =>
          if truthy id then (Some id, [key])
          else let '(r, ks) := rest index in (r, key :: ks)
      | None => let '(r, ks) := rest index in (r, key :: ks)
      end
    else rest index.

(** ** determineParent *)

Definition determineParent (location : Location) (countryGeonameid : string)
    : Lookup Parent :=
  let level := getAdminLevel location in
  if level =? 0 then ret None
  else if level =? 1 then ret (Some countryGeonameid)
  else
    tryKey ((level =? 2) && truthy (admin1Code location)) (key1 location)
   (tryKey ((level =? 3) && truthy (admin1Code location)
              && truthy (admin2Code location)) (key2 location)
   (tryKey ((level =? 4) && truthy (admin1Code location)
              && truthy (admin2Code location)
              && truthy (admin3Code location)) (key3 location)
   (tryKey ((level =? 5) && truthy (admin1Code location)
              && truthy (admin2Code location)
              && truthy (admin3Code location)
              && truthy (admin4Code location)) (key4 location)
   (ret (Some countryGeonameid))))).

(** ** determineParentForLocation *)

Definition determineParentForLocation (location : Location)
    (countryGeonameid : string) : Lookup Parent :=
  if isAdminFeature (featureCode location) then
    determineParent location countryGeonameid
  else
    tryKey (truthy (admin4Code location) && truthy (admin3Code location)
              && truthy (admin2Code location)
              && truthy (admin1Code location)) (key4 location)
   (tryKey (truthy (admin3Code location) && truthy (admin2Code location)
              && truthy (admin1Code location)) (key3 location)
   (tryKey (truthy (admin2Code location) && truthy (admin1Code location))
           (key2 location)
   (tryKey (truthy (admin1Code location)) (key1 location)
   (ret (Some countryGeonameid))))).

(** The value returned, and the keys consulted on the way. *)
Definition parentOf (l : Location) (c : string) (index : Index) : Parent :=
  fst (determineParentForLocation l c index).
Definition probes (l : Location) (c : string) (index : Index) : list string :=
  snd (determineParentForLocation l c index).

(** ** The inherited properties of [FEATURE_LEVELS]

    [FEATURE_LEVELS[code]] also finds the properties that every object
    inherits from [Object.prototype]; their values are functions (and,
    for [__proto__], the prototype object), never [undefined]. *)

Definition inheritedKeys : list string :=
  ["constructor"; "__defineGetter__"; "__defineSetter__"; "hasOwnProperty";
   "__lookupGetter__"; "__lookupSetter__"; "isPrototypeOf";
   "propertyIsEnumerable"; "toString"; "valueOf"; "__proto__";
   "toLocaleString"].

Definition inheritedProperty (key : string) : bool :=
  bool_decide (key ∈ inheritedKeys).

(** The classifier and the resolver with the inherited properties. *)
Module Js.

(** The value of [FEATURE_LEVELS[code]] when it is not [undefined], and so
    the value [getAdminLevel] returns: a number, or the value of an
    inherited property. *)
Inductive Value : Type :=
  | Number (n : nat)
  | Inherited (key : string).

(** [FEATURE_LEVELS[code]]; [None] is [undefined]. *)
Definition featureLevel (code : string) : option Value :=
  match FEATURE_LEVELS !! code with
  | Some n => Some (Number n)
  | None => if inheritedProperty code then Some (Inherited code) else None
  end.

Definition getAdminLevel (location : Location) : Value :=
  match featureLevel (featureCode location) with
  | Some level => level
  | None =>
      if truthy (admin4Code location) then Number 5
      else if truthy (admin3Code location) then Number 4
      else if truthy (admin2Code location) then Number 3
      else if truthy (admin1Code location) then Number 2
      else Number 1
  end.

(** [level === n] *)
Definition levelIs (level : Value) (n : nat) : bool :=
  match level with
  | Number m => m =? n
  | Inherited _ => false
  end.

Definition determineParent (location : Location) (countryGeonameid : string)
    : Lookup Parent :=
  let level := getAdminLevel location in
  if levelIs level 0 then ret None
  else if levelIs level 1 then ret (Some countryGeonameid)
  else
    tryKey (levelIs level 2 && truthy (admin1Code location)) (key1 location)
   (tryKey (levelIs level 3 && truthy (admin1Code location)
              && truthy (admin2Code location)) (key2 location)
   (tryKey (levelIs level 4 && truthy (admin1Code location)
              && truthy (admin2Code location)
              && truthy (admin3Code location)) (key3 location)
   (tryKey (levelIs level 5 && truthy (admin1Code location)
              && truthy (admin2Code location)
              && truthy (admin3Code location)
              && truthy (admin4Code location)) (key4 location)
   (ret (Some countryGeonameid))))).

Definition determineParentForLocation (location : Location)
    (countryGeonameid : string) : Lookup Parent :=
  match featureLevel (featureCode location) with
  | Some _ => determineParent location countryGeonameid
  | None =>
      tryKey (truthy (admin4Code location) && truthy (admin3Code location)
                && truthy (admin2Code location)
                && truthy (admin1Code location)) (key4 location)
     (tryKey (truthy (admin3Code location) && truthy (admin2Code location)
                && truthy (admin1Code location)) (key3 location)
     (tryKey (truthy (admin2Code location) && truthy (admin1Code location))
             (key2 location)
     (tryKey (truthy (admin1Code location)) (key1 location)
     (ret (Some countryGeonameid)))))
  end.

End Js.

(** ** Strings: [split], [endsWith], [includes], blank lines *)

(** [s.split(sep)] for a one-character separator. *)
Fixpoint split (sep : ascii) (s : string) : list string :=
  match s with
  | EmptyString => [EmptyString]
  | String c s' =>
      if Ascii.eqb c sep then EmptyString :: split sep s'
      else match split sep s' with
           | field :: fields => String c field :: fields
           | [] => [String c EmptyString]
           end
  end.

(** [s.endsWith(suffix)] *)
Fixpoint endsWith (s suffix : string) : bool :=
  if String.eqb s suffix then true
  else match s with
       | EmptyString => false
       | String _ s' => endsWith s' suffix
       end.

(** [s.includes(sub)] *)
Fixpoint includes (s sub : string) : bool :=
  if String.prefix sub s then true
  else match s with
       | EmptyString => false
       | String _ s' => includes s' sub
       end.

Definition tab : ascii := "009"%char.
Definition newline : ascii := "010"%char.

(** The one-byte characters that [trim] strips: tab, line feed, vertical
    tab, form feed, carriage return and space. *)
Definition isSpace (c : ascii) : bool :=
  let n := nat_of_ascii c in
  ((9 <=? n) && (n <=? 13)) || (n =? 32).

(** The two-byte character that [trim] strips: the no-break space
    U+00A0, encoded C2 A0. *)
Definition isSpace2 (a b : ascii) : bool :=
  (nat_of_ascii a =? 194) && (nat_of_ascii b =? 160).

(** The three-byte characters that [trim] strips: U+1680 (E1 9A 80),
    U+2000 to U+200A (E2 80 80 to E2 80 8A), the line and paragraph
    separators U+2028 and U+2029 (E2 80 A8, E2 80 A9), U+202F (E2 80 AF),
    U+205F (E2 81 9F), U+3000 (E3 80 80) and the byte order mark U+FEFF
    (EF BB BF). *)
Definition isSpace3 (a b c : ascii) : bool :=
  let x := nat_of_ascii a in
  let y := nat_of_ascii b in
  let z := nat_of_ascii c in
  ((x =? 225) && (y =? 154) && (z =? 128))
  || ((x =? 226) && (y =? 128)
      && (((128 <=? z) && (z <=? 138)) || (z =? 168) || (z =? 169)
          || (z =? 175)))
  || ((x =? 226) && (y =? 129) && (z =? 159))
  || ((x =? 227) && (y =? 128) && (z =? 128))
  || ((x =? 239) && (y =? 187) && (z =? 191)).

(** [!line.trim()]: the line is made of white space and line terminators
    only. *)
Fixpoint isBlank (line : string) : bool :=
  match line with
  | EmptyString => true
  | String a line1 =>
      if isSpace a then isBlank line1
      else match line1 with
           | EmptyString => false
           | String b line2 =>
               if isSpace2 a b then isBlank line2
               else match line2 with
                    | EmptyString => false
                    | String c line3 => isSpace3 a b c && isBlank line3
                    end
           end
  end.

(** ** parseGeonamesLine *)

Definition parseGeonamesLine (line : string) : option Location :=
  match split tab line with
  | f0 :: f1 :: f2 :: f3 :: f4 :: f5 :: f6 :: f7 :: f8 :: f9 :: f10 :: f11
      :: f12 :: f13 :: f14 :: f15 :: f16 :: f17 :: f18 :: _ =>
      Some {| geonameid := f0; name := f1; asciiname := f2;
              alternatenames := f3; latitude := f4; longitude := f5;
              featureClass := f6; featureCode := f7; countryCode := f8;
              cc2 := f9; admin1Code := f10; admin2Code := f11;
              admin3Code := f12; admin4Code := f13; population := f14;
              elevation := f15; dem := f16; timezone := f17;
              modificationDate := f18 |}
  | _ => None
  end.

(** ** The data directory *)

(** The attributes a node file carries besides the common ones. *)
Inductive Extra : Type :=
  | CountryInfo (iso iso3 capital area population continent languages : string)
  | PlaceInfo (latitude longitude population : string).

Module Node.
Record t : Type := mk {
  id : string;
  parent : option string;
  children : list string;
  name : string;
  level : nat;
  extra : Extra
}.
End Node.

(** A file of the data directory: the by-code file [{id, name}] of a
    country (which has no [children] property when it is created), or a
    node file. *)
Inductive File : Type :=
  | LookupFile (id name : string) (children : option (list string))
  | NodeFile (node : Node.t).

Abbreviation Store := (gmap string File).
Abbreviation ChildrenMap := (gmap string (list string)).

(** [parentData.children = childIds] *)
Definition setChildren (file : File) (childIds : list string) : File :=
  match file with
  | LookupFile id name _ => LookupFile id name (Some childIds)
  | NodeFile n =>
      NodeFile {| Node.id := Node.id n; Node.parent := Node.parent n;
                  Node.children := childIds; Node.name := Node.name n;
                  Node.level := Node.level n; Node.extra := Node.extra n |}
  end.

(** ** createCountryFiles *)

Definition countryNode (country : Country.t) : Node.t :=
  {| Node.id := Country.geonameid country;
     Node.parent := None;
     Node.children := [];
     Node.name := Country.name country;
     Node.level := 0;
     Node.extra :=
       CountryInfo (Country.iso country) (Country.iso3 country)
         (Country.capital country) (Country.area country)
         (Country.population country) (Country.continent country)
         (Country.languages country) |}.

Definition createCountryFiles (countries : list Country.t) (store : Store)
    : Store :=
  fold_left
    (λ store country,
       <[Country.geonameid country := NodeFile (countryNode country)]>
         (<[Country.iso country :=
              LookupFile (Country.geonameid country) (Country.name country)
                None]> store))
    countries store.

(** ** processCountryZip *)

Record ZipEntry : Type := mkZipEntry {
  entryName : string;
  isDirectory : bool;
  getData : string
}.

(** The predicate given to [zipEntries.find]. *)
Definition isDataEntry (iso : string) (entry : ZipEntry) : bool :=
  String.eqb (entryName entry) (iso +:+ ".txt")
  || (endsWith (entryName entry) ".txt"
      && negb (includes (entryName entry) "readme")
      && negb (isDirectory entry)).

Definition findDataEntry (iso : string) (zipEntries : list ZipEntry)
    : option ZipEntry :=
  List.find (isDataEntry iso) zipEntries.

(** First pass, the body of the [if (FEATURE_LEVELS[...] !== undefined)]
    block: one record's contribution to the index. *)
Definition indexStep (index : Index) (location : Location) : Index :=
  if isAdminFeature (featureCode location) then
    let level := getAdminLevel location in
    if (level =? 1) && truthy (admin1Code location) then
      <[key1 location := geonameid location]> index
    else if (level =? 2) && truthy (admin1Code location)
              && truthy (admin2Code location) then
      <[key2 location := geonameid location]> index
    else if (level =? 3) && truthy (admin1Code location)
              && truthy (admin2Code location)
              && truthy (admin3Code location) then
      <[key3 location := geonameid location]> index
    else if (level =? 4) && truthy (admin1Code location)
              && truthy (admin2Code location)
              && truthy (admin3Code location)
              && truthy (admin4Code location) then
      <[key4 location := geonameid location]> index
    else index
  else index.

(** First pass, one iteration over a line: the state is
    [(locationsByAdminCode, allLocations)]. *)
Definition firstPassStep (st : Index * list Location) (line : string)
    : Index * list Location :=
  if isBlank line then st
  else match parseGeonamesLine line with
       | None => st
       | Some location => (indexStep st.1 location, st.2 ++ [location])
       end.

Definition firstPass (lines : list string) : Index * list Location :=
  fold_left firstPassStep lines (∅, []).

(** [childrenMap[parent].push(child)], creating the array when missing. *)
Definition pushChild (childrenMap : ChildrenMap) (parent child : string)
    : ChildrenMap :=
  <[parent := default [] (childrenMap !! parent) ++ [child]]> childrenMap.

(** The node file written for a record in the second pass. *)
Definition locationNode (location : Location) (parent : Parent) : Node.t :=
  {| Node.id := geonameid location;
     Node.parent := parent;
     Node.children := [];
     Node.name := name location;
     Node.level := getAdminLevel location;
     Node.extra :=
       PlaceInfo (latitude location) (longitude location)
         (population location) |}.

(** Second pass, one iteration: the state is [(childrenMap, store)]. *)
Definition secondPassStep (countryGeonameid : string) (index : Index)
    (st : ChildrenMap * Store) (location : Location) : ChildrenMap * Store :=
  let parent := parentOf location countryGeonameid index in
  let childrenMap :=
    match parent with
    | Some p =>
        if truthy p then pushChild st.1 p (geonameid location) else st.1
    | None => st.1
    end in
  (childrenMap,
   <[geonameid location := NodeFile (locationNode location parent)]> st.2).

Definition secondPass (countryGeonameid : string) (index : Index)
    (allLocations : list Location) (store : Store) : ChildrenMap * Store :=
  fold_left (secondPassStep countryGeonameid index) allLocations (∅, store).

(** Third pass, one iteration over an entry of [childrenMap]. *)
Definition thirdPassStep (parentId : string) (childIds : list string)
    (store : Store) : Store :=
  match store !! parentId with
  | Some parentData => <[parentId := setChildren parentData childIds]> store
  | None => store
  end.

Definition thirdPass (childrenMap : ChildrenMap) (store : Store) : Store :=
  map_fold thirdPassStep store childrenMap.

(** The three passes over the lines of the data file. *)
Definition processLines (countryGeonameid : string) (lines : list string)
    (store : Store) : Store :=
  let '(index, allLocations) := firstPass lines in
  let '(childrenMap, store') :=
    secondPass countryGeonameid index allLocations store in
  thirdPass childrenMap store'.

(** [zip] is [None] when the archive [raw/<iso>.zip] does not exist, and
    the list of its entries otherwise. *)
Definition processCountryZip (country : Country.t)
    (zip : option (list ZipEntry)) (store : Store) : Store :=
  match zip with
  | None => store
  | Some zipEntries =>
      match findDataEntry (Country.iso country) zipEntries with
      | None => store
      | Some dataEntry =>
          processLines (Country.geonameid country)
            (split newline (getData dataEntry)) store
      end
  end.

(** ** parseCountryInfo *)

(** [line.startsWith('#') || line.trim() === ''] *)
Definition isCommentOrBlank (line : string) : bool :=
  String.prefix "#" line || isBlank line.

(** One iteration of the loop of [parseCountryInfo] over a line; the state
    is the array [countries].  [fields[18] || ''] is the nineteenth field
    when there is one, and the empty string otherwise. *)
Definition parseCountryInfoStep (countries : list Country.t) (line : string)
    : list Country.t :=
  if isCommentOrBlank line then countries
  else match split tab line with
       | f0 :: f1 :: f2 :: f3 :: f4 :: f5 :: f6 :: f7 :: f8 :: f9 :: f10
           :: f11 :: f12 :: f13 :: f14 :: f15 :: f16 :: f17 :: rest =>
           countries ++
             [ {| Country.iso := f0; Country.iso3 := f1;
                  Country.isoNumeric := f2; Country.fips := f3;
                  Country.name := f4; Country.capital := f5;
                  Country.area := f6; Country.population := f7;
                  Country.continent := f8; Country.tld := f9;
                  Country.currencyCode := f10; Country.currencyName := f11;
                  Country.phone := f12; Country.postalCodeFormat := f13;
                  Country.postalCodeRegex := f14; Country.languages := f15;
                  Country.geonameid := f16; Country.neighbours := f17;
                  Country.equivalentFipsCode := default "" (head rest) |} ]
       | _ => countries
       end.

(** [content] is the text of [raw/countryInfo.txt]. *)
Definition parseCountryInfo (content : string) : list Country.t :=
  fold_left parseCountryInfoStep (split newline content) [].

(** ** saveCountriesList *)

(** The array written to [countries.json]. *)
Definition saveCountriesList (countries : list Country.t) : list string :=
  Country.geonameid <$> countries.

(** ** main

    Steps 3 and 4 of [main]: the country files, then the archives one
    country after the other.  [raw] maps a country code to the entries of
    [raw/<code>.zip] when that archive exists.  The manifest
    [countries.json] of step 2 is [saveCountriesList], kept apart from the
    store. *)
Definition main (countryInfo : string) (raw : gmap string (list ZipEntry))
    (store : Store) : Store :=
  let countries := parseCountryInfo countryInfo in
  fold_left
    (λ store country,
       processCountryZip country (raw !! Country.iso country) store)
    countries (createCountryFiles countries store).

(** ** download.js: parseCountryCodes *)

(** One iteration of the loop of [parseCountryCodes]; the state is the
    array [countryCodes]. *)
Definition parseCountryCodesStep (countryCodes : list string) (line : string)
    : list string :=
  if isCommentOrBlank line then countryCodes
  else match split tab line with
       | countryCode :: _ =>
           if truthy countryCode then countryCodes ++ [countryCode]
           else countryCodes
       | [] => countryCodes
       end.

Definition parseCountryCodes (countryInfoContent : string) : list string :=
  fold_left parseCountryCodesStep (split newline countryInfoContent) [].

(** * Definitions for the statements

    The functions of the specification, worded as it words them, and the
    notions the statements below are phrased in. *)

(** The classification as the specification words it: the fixed level of
    each of the six administrative codes, and otherwise one more than the
    deepest populated admin column. *)
Definition specLevel (l : Location) : nat :=
  let code := featureCode l in
  if decide (code = "PCLI") then 0
  else if decide (code = "ADM1") then 1
  else if decide (code = "ADM2") then 2
  else if decide (code = "ADM3") then 3
  else if decide (code = "ADM4") then 4
  else if decide (code = "ADM5") then 5
  else if decide (admin4Code l ≠ "") then 5
  else if decide (admin3Code l ≠ "") then 4
  else if decide (admin2Code l ≠ "") then 3
  else if decide (admin1Code l ≠ "") then 2
  else 1.

(** What [firstPassStep] keeps of the lines: the records of the non-blank
    lines that have at least 19 fields. *)
Definition parseLines (lines : list string) : list Location :=
  omap (λ line, if isBlank line then None else parseGeonamesLine line) lines.

(** The index the first pass leaves, as a function of the records it
    keeps: the loop body [indexStep] folded over them ([firstPass_eq]). *)
Definition buildIndex (allLocations : list Location) : Index :=
  fold_left indexStep allLocations ∅.

(** The number of admin segments of the key a record is indexed under, if
    it is indexed at all. *)
Definition indexedDepth (l : Location) : option nat :=
  if isAdminFeature (featureCode l) then
    let level := getAdminLevel l in
    if (1 <=? level) && (level <=? 4) && populated l level then Some level
    else None
  else None.

(** The resolution as the specification words it: of the chains with 4, 3,
    2 and 1 segments, keep those whose columns are all populated and whose
    key is present in the index; answer the id stored under the first of
    them, and the country when there is none. *)
Definition chainParent (l : Location) (c : string) (index : Index) : string :=
  default c
    (head (omap (λ n, if populated l n then index !! adminKey l n else None)
             [4; 3; 2; 1])).

(** The number of separator characters in a string. *)
Fixpoint countDots (s : string) : nat :=
  match s with
  | EmptyString => 0
  | String c s' => (if Ascii.eqb c "."%char then 1 else 0) + countDots s'
  end.

(** No country or admin code of the record contains the separator. *)
Definition dotFree (l : Location) : Prop :=
  countDots (countryCode l) = 0 ∧ countDots (admin1Code l) = 0 ∧
  countDots (admin2Code l) = 0 ∧ countDots (admin3Code l) = 0 ∧
  countDots (admin4Code l) = 0.

(** Two facts that every resolver shares, preserved by [tryKey]: a result
    is the country, nothing, or an id stored in the index; and when the
    last key consulted holds a non-empty id, that id is the result. *)
Definition sound (c : string) (index : Index) (m : Lookup Parent) : Prop :=
  (∀ p, fst (m index) = Some p → p = c ∨ ∃ key, index !! key = Some p) ∧
  (∀ key id, last (snd (m index)) = Some key → index !! key = Some id →
             truthy id = true → fst (m index) = Some id).

(** The key a record is indexed under, if it is indexed. *)
Definition indexedKey (l : Location) : option string :=
  adminKey l <$> indexedDepth l.

(** The three passes as a function of the records kept by the first
    ([processLines_eq]). *)
Definition processLocations (c : string) (allLocations : list Location)
    (store : Store) : Store :=
  let index := buildIndex allLocations in
  let '(childrenMap, store') := secondPass c index allLocations store in
  thirdPass childrenMap store'.

(** The ids of the records resolved to parent [p], in file order: the
    children of [p] as the specification words them. *)
Definition childrenOf (c : string) (index : Index) (p : string)
    (allLocations : list Location) : list string :=
  geonameid <$> filter (λ l, parentOf l c index = Some p) allLocations.


(** The parent link and the level of a stored node. *)
Definition storedParent (store : Store) (id : string) : option string :=
  match store !! id with
  | Some (NodeFile n) => Node.parent n
  | _ => None
  end.

Definition storedLevel (store : Store) (id : string) : option nat :=
  match store !! id with
  | Some (NodeFile n) => Some (Node.level n)
  | _ => None
  end.

(** The node reached from [id] by following parent links, [hops] of them
    at most. *)
Fixpoint climb (store : Store) (hops : nat) (id : string) : string :=
  match hops with
  | 0 => id
  | S hops' =>
      match storedParent store id with
      | Some p => climb store hops' p
      | None => id
      end
  end.

(** The string [s] holds no character [c]. *)
Fixpoint noChar (c : ascii) (s : string) : bool :=
  match s with
  | EmptyString => true
  | String a s' => negb (Ascii.eqb a c) && noChar c s'
  end.

(** The columns of a record, in the order of the data file. *)
Definition locationFields (l : Location) : list string :=
  [geonameid l; name l; asciiname l; alternatenames l; latitude l;
   longitude l; featureClass l; featureCode l; countryCode l; cc2 l;
   admin1Code l; admin2Code l; admin3Code l; admin4Code l; population l;
   elevation l; dem l; timezone l; modificationDate l].

(** The columns of a row of countryInfo.txt, in the order of that file. *)
Definition countryFields (c : Country.t) : list string :=
  [Country.iso c; Country.iso3 c; Country.isoNumeric c; Country.fips c;
   Country.name c; Country.capital c; Country.area c; Country.population c;
   Country.continent c; Country.tld c; Country.currencyCode c;
   Country.currencyName c; Country.phone c; Country.postalCodeFormat c;
   Country.postalCodeRegex c; Country.languages c; Country.geonameid c;
   Country.neighbours c; Country.equivalentFipsCode c].

(** Fields joined by tabs, and lines joined by line feeds. *)
Definition joinTabs (fields : list string) : string :=
  String.concat (String tab EmptyString) fields.
Definition joinLines (lines : list string) : string :=
  String.concat (String newline EmptyString) lines.

(** A row that can be written on one line of a tab-separated file and is
    read back: no column holds a tab or a line feed, and the line is
    neither a comment nor blank. *)
Definition writableCountry (c : Country.t) : Prop :=
  Forall (λ f, noChar tab f = true ∧ noChar newline f = true)
    (countryFields c) ∧
  isCommentOrBlank (joinTabs (countryFields c)) = false.

(** The ids attached to [p] by the third pass: the records resolved to
    [p], none when [p] is the empty string, which the second pass takes for
    a missing parent. *)
Definition attached (c : string) (index : Index) (p : string)
    (allLocations : list Location) : list string :=
  if decide (p = "") then [] else childrenOf c index p allLocations.

(** The file the second pass leaves under [id]: the node of the last
    record carrying this id, or what the store held. *)
Definition written (c : string) (index : Index)
    (allLocations : list Location) (store : Store) (id : string)
    : option File :=
  match last (filter (λ l, geonameid l = id) allLocations) with
  | Some l => Some (NodeFile (locationNode l (parentOf l c index)))
  | None => store !! id
  end.

(** The number of characters [c] in [s]. *)
Fixpoint countChar (c : ascii) (s : string) : nat :=
  match s with
  | EmptyString => 0
  | String a s' => (if Ascii.eqb a c then 1 else 0) + countChar c s'
  end.

(** An id as GeoNames issues them: a non-empty string of decimal digits. *)
Definition isDigit (c : ascii) : bool :=
  let n := nat_of_ascii c in (48 <=? n) && (n <=? 57).

Fixpoint allDigits (s : string) : bool :=
  match s with
  | EmptyString => true
  | String a s' => isDigit a && allDigits s'
  end.

Definition numericId (id : string) : bool := truthy id && allDigits id.

(** The four composite keys of a record. *)
Definition ownKeys (l : Location) : list string :=
  [key4 l; key3 l; key2 l; key1 l].

(** * Sample data

    Records with the columns the hierarchy depends on (the other columns
    are left empty), countries, and archives. *)

Definition sample (id nm code cc a1 a2 a3 a4 : string) : Location :=
  {| geonameid := id; name := nm; asciiname := ""; alternatenames := "";
     latitude := ""; longitude := ""; featureClass := "";
     featureCode := code; countryCode := cc; cc2 := "";
     admin1Code := a1; admin2Code := a2; admin3Code := a3;
     admin4Code := a4; population := ""; elevation := ""; dem := "";
     timezone := ""; modificationDate := "" |}.

Definition california : Location :=
  sample "5332921" "California" "ADM1" "US" "CA" "" "" "".
Definition sanFranciscoCounty : Location :=
  sample "5391959" "San Francisco County" "ADM2" "US" "CA" "06075" "" "".
Definition goldenGatePark : Location :=
  sample "5352844" "Golden Gate Park" "PRK" "US" "CA" "" "" "".

(** An ADM2 row whose admin1 column is empty. *)
Definition countyWithoutAdmin1 : Location :=
  sample "5391959" "San Francisco County" "ADM2" "US" "" "06075" "" "".

(** The row of the country itself, as it occurs in the country's file. *)
Definition andorraRow : Location :=
  sample "3041565" "Principality of Andorra" "PCLI" "AD" "00" "" "" "".

(** An ADM1 row whose admin1 code contains the separator, and an ADM3 row
    whose two-segment key is spelled the same. *)
Definition dottedState : Location :=
  sample "9000001" "Dotted" "ADM1" "US" "CA.06075" "" "" "".
Definition township : Location :=
  sample "9000002" "Township" "ADM3" "US" "CA" "06075" "T1" "".

(** A second row for California with another id. *)
Definition californiaReissued : Location :=
  sample "9999999" "State of California" "ADM1" "US" "CA" "" "" "".

Definition sampleCountry (iso iso3 nm capital continent languages id : string)
    : Country.t :=
  {| Country.iso := iso; Country.iso3 := iso3; Country.isoNumeric := "";
     Country.fips := ""; Country.name := nm; Country.capital := capital;
     Country.area := ""; Country.population := "";
     Country.continent := continent; Country.tld := "";
     Country.currencyCode := ""; Country.currencyName := "";
     Country.phone := ""; Country.postalCodeFormat := "";
     Country.postalCodeRegex := ""; Country.languages := languages;
     Country.geonameid := id; Country.neighbours := "";
     Country.equivalentFipsCode := "" |}.

Definition unitedStates : Country.t :=
  sampleCountry "US" "USA" "United States" "Washington" "NA" "en-US" "6252001".
Definition andorra : Country.t :=
  sampleCountry "AD" "AND" "Andorra" "Andorra la Vella" "EU" "ca" "3041565".
Definition puertoRico : Country.t :=
  sampleCountry "PR" "PRI" "Puerto Rico" "San Juan" "NA" "en-PR,es-PR"
    "4566966".

(** The line of a data file that holds a record. *)
Definition tsvLine (l : Location) : string :=
  String.concat (String tab EmptyString)
    [geonameid l; name l; asciiname l; alternatenames l; latitude l;
     longitude l; featureClass l; featureCode l; countryCode l; cc2 l;
     admin1Code l; admin2Code l; admin3Code l; admin4Code l; population l;
     elevation l; dem l; timezone l; modificationDate l].

Definition dataFile (rows : list Location) : string :=
  String.concat (String newline EmptyString) (tsvLine <$> rows).

Definition canillo : Location :=
  sample "3041203" "Canillo" "ADM1" "AD" "02" "" "" "".
Definition puertoRicoRow : Location :=
  sample "4566966" "Puerto Rico" "PCLD" "PR" "00" "" "" "".

Definition andorraZip : list ZipEntry :=
  [ {| entryName := "readme.txt"; isDirectory := false; getData := "Readme" |};
    {| entryName := "AD.txt"; isDirectory := false;
       getData := dataFile [andorraRow; canillo] |} ].

Definition puertoRicoZip : list ZipEntry :=
  [ {| entryName := "PR.txt"; isDirectory := false;
       getData := dataFile [puertoRicoRow] |} ].

(** An archive whose first text entry is not the country's data file. *)
Definition shuffledZip : list ZipEntry :=
  [ {| entryName := "notes.txt"; isDirectory := false; getData := "notes" |};
    {| entryName := "US.txt"; isDirectory := false;
       getData := dataFile [california] |} ].

Definition usRecords : list Location :=
  [california; sanFranciscoCounty; goldenGatePark; sanFranciscoCounty].

(** An archive whose data file holds a short line and a blank line. *)
Definition emptyZip : list ZipEntry :=
  [ {| entryName := "US.txt"; isDirectory := false;
       getData := joinLines [joinTabs ["6252001"; "United States"]; ""] |} ].

(** A countryInfo.txt with a comment line and the row of Andorra, and a
    raw directory that holds Andorra's archive. *)
Definition andorraInfo : string :=
  joinLines ["# ISO ISO3 ..."; joinTabs (countryFields andorra)].
Definition andorraRaw : gmap string (list ZipEntry) :=
  {[ "AD" := andorraZip ]}.

(** A place whose feature code is spelled like a property that every
    object inherits. *)
Definition constructorPlace : Location :=
  sample "5352844" "Golden Gate Park" "constructor" "US" "CA" "" "" "".

(** * Properties *)

(** ** JavaScript truthiness *)

Lemma truthy_true (s : string) : truthy s = true ↔ s ≠ "".
Proof. destruct s; simpl; split; congruence. Qed.

Lemma truthy_false (s : string) : truthy s = false ↔ s = "".
Proof. destruct s; simpl; split; congruence. Qed.

(** ** The feature table *)

Lemma FEATURE_LEVELS_Some (code : string) (n : nat) :
  FEATURE_LEVELS !! code = Some n ↔
    (code = "PCLI" ∧ n = 0) ∨ (code = "ADM1" ∧ n = 1) ∨
    (code = "ADM2" ∧ n = 2) ∨ (code = "ADM3" ∧ n = 3) ∨
    (code = "ADM4" ∧ n = 4) ∨ (code = "ADM5" ∧ n = 5).
Proof.
  unfold FEATURE_LEVELS.
  rewrite !lookup_insert_Some, lookup_singleton_Some.
  split.
  - intros H. repeat (destruct H as [[<- <-]|[_ H]]; [auto 10|]).
    destruct H as [<- <-]. auto 10.
  - intros H. repeat (destruct H as [[-> ->]|H]); [..|destruct H as [-> ->]];
      repeat first [ left; split; reflexivity
                   | right; split; [discriminate|] ];
      split; reflexivity.
Qed.

Lemma FEATURE_LEVELS_None (code : string) :
  FEATURE_LEVELS !! code = None ↔
    code ≠ "PCLI" ∧ code ≠ "ADM1" ∧ code ≠ "ADM2" ∧
    code ≠ "ADM3" ∧ code ≠ "ADM4" ∧ code ≠ "ADM5".
Proof.
  unfold FEATURE_LEVELS.
  rewrite !lookup_insert_None, lookup_singleton_None.
  split; intros H; repeat match goal with H : _ ∧ _ |- _ => destruct H end;
    repeat split; auto.
Qed.

Lemma FEATURE_LEVELS_le (code : string) (n : nat) :
  FEATURE_LEVELS !! code = Some n → n ≤ 5.
Proof.
  rewrite FEATURE_LEVELS_Some.
  intros [[_ ->]|[[_ ->]|[[_ ->]|[[_ ->]|[[_ ->]|[_ ->]]]]]]; lia.
Qed.

Lemma isAdminFeature_true (code : string) :
  isAdminFeature code = true ↔ ∃ n, FEATURE_LEVELS !! code = Some n.
Proof.
  unfold isAdminFeature. destruct (FEATURE_LEVELS !! code); split;
    try done; eauto. intros [? ?]; done.
Qed.

Lemma isAdminFeature_false (code : string) :
  isAdminFeature code = false ↔ FEATURE_LEVELS !! code = None.
Proof. unfold isAdminFeature. by destruct (FEATURE_LEVELS !! code). Qed.

Lemma getAdminLevel_admin (l : Location) (n : nat) :
  FEATURE_LEVELS !! featureCode l = Some n → getAdminLevel l = n.
Proof. unfold getAdminLevel. by intros ->. Qed.

(** ** Level Classifier *)

(** On the own properties of [FEATURE_LEVELS] the classifier is the one
    the specification words: a record with one of the six administrative
    feature codes gets the fixed level of that code (PCLI 0, ADM1 1, ...,
    ADM5 5); any other record gets 5 when admin4 is populated, else 4 when
    admin3 is, else 3 when admin2 is, else 2 when admin1 is, else 1.  The
    level is never above 5.  [Js_getAdminLevel_specLevel] carries this to
    the code for every feature code that is not an inherited property
    name. *)
Lemma getAdminLevel_specLevel :
  ∀ l : Location, getAdminLevel l = specLevel l ∧ getAdminLevel l ≤ 5.
Proof.
  intros l.
  assert (Heq : getAdminLevel l = specLevel l).
  { unfold getAdminLevel, specLevel; simpl.
    destruct (FEATURE_LEVELS !! featureCode l) as [n|] eqn:Hcode.
    - apply FEATURE_LEVELS_Some in Hcode.
      destruct Hcode as [[-> ->]|[[-> ->]|[[-> ->]|[[-> ->]|[[-> ->]|[-> ->]]]]]];
        reflexivity.
    - apply FEATURE_LEVELS_None in Hcode.
      destruct Hcode as (? & ? & ? & ? & ? & ?).
      repeat (case_decide; [congruence|]).
      destruct (admin4Code l), (admin3Code l), (admin2Code l),
        (admin1Code l); simpl; repeat case_decide; congruence. }
  split; [exact Heq|].
  rewrite Heq. unfold specLevel; simpl. repeat case_decide; lia.
Qed.

(** ** The index built by the first pass *)

Lemma firstPass_fold (lines : list string) (index : Index)
    (acc : list Location) :
  fold_left firstPassStep lines (index, acc) =
    (fold_left indexStep (parseLines lines) index, acc ++ parseLines lines).
Proof.
  revert index acc. induction lines as [|line lines IH]; intros index acc.
  - simpl. by rewrite app_nil_r.
  - simpl. unfold firstPassStep at 2, parseLines. simpl.
    destruct (isBlank line); [apply IH|].
    destruct (parseGeonamesLine line) as [location|]; [|apply IH].
    simpl. rewrite IH. f_equal. by rewrite <- app_assoc.
Qed.

Lemma firstPass_eq (lines : list string) :
  firstPass lines = (buildIndex (parseLines lines), parseLines lines).
Proof. unfold firstPass, buildIndex. by rewrite firstPass_fold. Qed.

Lemma indexStep_indexedDepth (index : Index) (l : Location) :
  indexStep index l =
    match indexedDepth l with
    | Some n => <[adminKey l n := geonameid l]> index
    | None => index
    end.
Proof.
  unfold indexStep, indexedDepth.
  destruct (isAdminFeature (featureCode l)) eqn:Hadm; [|done].
  apply isAdminFeature_true in Hadm as [n Hn].
  rewrite (getAdminLevel_admin _ _ Hn). pose proof (FEATURE_LEVELS_le _ _ Hn).
  destruct n as [|[|[|[|[|[|n]]]]]]; try lia; simpl;
    repeat match goal with
           | |- context [truthy ?s] => destruct (truthy s); simpl
           end; reflexivity.
Qed.

Lemma indexedDepth_Some (l : Location) (n : nat) :
  indexedDepth l = Some n →
    isAdminFeature (featureCode l) = true ∧ getAdminLevel l = n ∧
    1 ≤ n ≤ 4 ∧ populated l n = true.
Proof.
  unfold indexedDepth. destruct (isAdminFeature (featureCode l)); [|done].
  destruct (1 <=? getAdminLevel l) eqn:H1; [|done].
  destruct (getAdminLevel l <=? 4) eqn:H4; [|done].
  destruct (populated l (getAdminLevel l)) eqn:Hp; [|done].
  simpl. intros [= <-].
  apply Nat.leb_le in H1. apply Nat.leb_le in H4. done.
Qed.

(** Last write wins: the index holds, under each key, the id of the last
    record indexed under it. *)
Lemma buildIndex_snoc (allLocations : list Location) (l : Location) :
  buildIndex (allLocations ++ [l]) = indexStep (buildIndex allLocations) l.
Proof. unfold buildIndex. by rewrite fold_left_app. Qed.

Lemma buildIndex_lookup_Some (allLocations : list Location)
    (key id : string) :
  buildIndex allLocations !! key = Some id →
  ∃ r n, r ∈ allLocations ∧ indexedDepth r = Some n ∧
         key = adminKey r n ∧ id = geonameid r.
Proof.
  induction allLocations as [|l allLocations IH] using rev_ind.
  - unfold buildIndex. simpl. by rewrite lookup_empty.
  - rewrite buildIndex_snoc, indexStep_indexedDepth.
    destruct (indexedDepth l) as [n|] eqn:Hd.
    + rewrite lookup_insert_Some. intros [[<- <-]|[_ Hk]].
      * exists l, n. rewrite elem_of_app, list_elem_of_singleton. auto.
      * destruct (IH Hk) as (r & m & ? & ? & ? & ?).
        exists r, m. rewrite elem_of_app. auto.
    + intros Hk. destruct (IH Hk) as (r & m & ? & ? & ? & ?).
      exists r, m. rewrite elem_of_app. auto.
Qed.

(** C4. Every entry of the Admin-Code Index comes from a record of the
    file whose feature code is a recognized administrative code, whose
    level is 1, 2, 3 or 4 and whose admin columns up to that level are all
    non-empty; its key is the country code followed by exactly that many
    admin segments and its value is that record's id.  A level-5 division,
    a country row and an ordinary place leave the index unchanged. *)
Theorem adminIndex_entries (allLocations : list Location) :
  (∀ key id, buildIndex allLocations !! key = Some id →
     ∃ r, r ∈ allLocations ∧
          isAdminFeature (featureCode r) = true ∧
          1 ≤ getAdminLevel r ≤ 4 ∧
          populated r (getAdminLevel r) = true ∧
          key = adminKey r (getAdminLevel r) ∧
          id = geonameid r) ∧
  (∀ index r,
     isAdminFeature (featureCode r) = false ∨ getAdminLevel r = 5 ∨
       getAdminLevel r = 0 →
     indexStep index r = index).
Proof.
  split.
  - intros key id Hk.
    destruct (buildIndex_lookup_Some _ _ _ Hk) as (r & n & Hr & Hd & -> & ->).
    apply indexedDepth_Some in Hd as (Hadm & <- & Hn & Hp).
    exists r. done.
  - intros index r Hr. rewrite indexStep_indexedDepth.
    destruct (indexedDepth r) as [n|] eqn:Hd; [|done].
    apply indexedDepth_Some in Hd as (Hadm & <- & Hn & Hp).
    destruct Hr as [Hr|[Hr|Hr]]; [congruence|lia|lia].
Qed.

(** ** Parent Resolver: administrative divisions *)

Ltac case_truthy :=
  repeat match goal with
         | |- context [truthy ?s] => destruct (truthy s) eqn:?; simpl
         end.

(** A division of level [n ≥ 2] reads the index at most once, at the key
    with [n - 1] segments, and otherwise answers the country. *)
Lemma determineParentForLocation_admin (l : Location) (c : string)
    (index : Index) (n : nat) :
  FEATURE_LEVELS !! featureCode l = Some n → 2 ≤ n →
  determineParentForLocation l c index =
    if populated l (n - 1) then
      match index !! adminKey l (n - 1) with
      | Some id =>
          if truthy id then (Some id, [adminKey l (n - 1)])
          else (Some c, [adminKey l (n - 1)])
      | None => (Some c, [adminKey l (n - 1)])
      end
    else (Some c, []).
Proof.
  intros Hn Hge. pose proof (FEATURE_LEVELS_le _ _ Hn) as Hle.
  unfold determineParentForLocation, isAdminFeature. rewrite Hn.
  unfold determineParent. rewrite (getAdminLevel_admin _ _ Hn).
  destruct n as [|[|[|[|[|[|n]]]]]]; try lia; simpl;
    unfold tryKey, ret; simpl; case_truthy;
    repeat match goal with
           | |- context [index !! ?k] => destruct (index !! k) eqn:?; simpl
           end; case_truthy; reflexivity.
Qed.

Lemma determineParentForLocation_level1 (l : Location) (c : string)
    (index : Index) :
  FEATURE_LEVELS !! featureCode l = Some 1 →
  determineParentForLocation l c index = (Some c, []).
Proof.
  intros Hn. unfold determineParentForLocation, isAdminFeature. rewrite Hn.
  unfold determineParent. by rewrite (getAdminLevel_admin _ _ Hn).
Qed.

Lemma determineParentForLocation_level0 (l : Location) (c : string)
    (index : Index) :
  FEATURE_LEVELS !! featureCode l = Some 0 →
  determineParentForLocation l c index = (None, []).
Proof.
  intros Hn. unfold determineParentForLocation, isAdminFeature. rewrite Hn.
  unfold determineParent. by rewrite (getAdminLevel_admin _ _ Hn).
Qed.

(** C3 (as amended). A division of level 2 to 5 consults the index at most
    once: exactly once, at the key with level minus one segments, when its
    admin columns up to level minus one are all populated, and not at all
    otherwise.  When that lookup is skipped or misses, the parent is the
    country itself, whatever the index holds under shorter keys: the answer
    depends on the index through that one key only. *)
Theorem division_parent_single_lookup (l : Location) (c : string)
    (index : Index) (n : nat) :
  FEATURE_LEVELS !! featureCode l = Some n → 2 ≤ n →
  probes l c index =
    (if populated l (n - 1) then [adminKey l (n - 1)] else []) ∧
  (populated l (n - 1) = false ∨ index !! adminKey l (n - 1) = None →
     parentOf l c index = Some c) ∧
  (∀ index' : Index,
     index' !! adminKey l (n - 1) = index !! adminKey l (n - 1) →
     parentOf l c index' = parentOf l c index).
Proof.
  intros Hn Hge. unfold probes, parentOf.
  split; [|split].
  - rewrite (determineParentForLocation_admin l c index n Hn Hge).
    destruct (populated l (n - 1)); [|done].
    destruct (index !! adminKey l (n - 1)) as [id|]; [|done].
    by destruct (truthy id).
  - rewrite (determineParentForLocation_admin l c index n Hn Hge).
    intros [-> | ->]; [done|]. by destruct (populated l (n - 1)).
  - intros index' Heq.
    rewrite (determineParentForLocation_admin l c index n Hn Hge).
    rewrite (determineParentForLocation_admin l c index' n Hn Hge).
    by rewrite Heq.
Qed.

Lemma division_parent_single_lookup_witness :
  probes sanFranciscoCounty "6252001" (buildIndex [california]) = ["US.CA"] ∧
  parentOf sanFranciscoCounty "6252001" ∅ = Some "6252001".
Proof.
  split.
  - apply (division_parent_single_lookup sanFranciscoCounty "6252001"
             (buildIndex [california]) 2); [reflexivity | lia].
  - apply (division_parent_single_lookup sanFranciscoCounty "6252001" ∅ 2);
      [reflexivity | lia | right; reflexivity].
Defined.

(** C3 (as stated) fails: a level-2 division whose admin1 column is empty
    is resolved without any index lookup, not with exactly one. *)
Lemma division_without_admin1_no_lookup :
  FEATURE_LEVELS !! featureCode countyWithoutAdmin1 = Some 2 ∧
  getAdminLevel countyWithoutAdmin1 = 2 ∧
  probes countyWithoutAdmin1 "6252001" (buildIndex [california]) = [] ∧
  length (probes countyWithoutAdmin1 "6252001" (buildIndex [california])) ≠ 1.
Proof. repeat split; vm_compute; congruence. Qed.

(** ** Parent Resolver: ordinary places *)

(** The index of a file whose records all have an id holds no empty id. *)
Lemma buildIndex_ids_nonempty (allLocations : list Location) :
  Forall (λ l, geonameid l ≠ "") allLocations →
  map_Forall (λ _ id, id ≠ "") (buildIndex allLocations).
Proof.
  intros Hids key id Hkey.
  apply buildIndex_lookup_Some in Hkey as (r & n & Hr & _ & _ & ->).
  rewrite Forall_forall in Hids. by apply Hids.
Qed.

(** On the own properties of [FEATURE_LEVELS]: for a record whose feature
    code is not a recognized administrative code, the resolver tries the
    populated admin-code chains from 4 segments down to 1 and returns the
    id stored in the index under the first chain whose key is present;
    when no populated chain has an entry, or no admin code is populated,
    it returns the country's id.  Ids are non-empty, as geoname ids are:
    the code tests an index entry with [if (index[key])], which takes a
    stored empty string for a missing entry.  [Js_ordinary_place_parent]
    carries this to the code for every feature code that is not an
    inherited property name. *)
Lemma ordinary_place_parent (l : Location) (c : string) (index : Index) :
  isAdminFeature (featureCode l) = false →
  map_Forall (λ _ id, id ≠ "") index →
  parentOf l c index = Some (chainParent l c index).
Proof.
  intros Hadm Hne. unfold parentOf, determineParentForLocation.
  rewrite Hadm. unfold chainParent, tryKey, ret. simpl.
  destruct (truthy (admin1Code l)), (truthy (admin2Code l)),
    (truthy (admin3Code l)), (truthy (admin4Code l)); simpl;
    repeat match goal with
           | |- context [index !! ?k] =>
               let H := fresh "Hk" in
               destruct (index !! k) as [[|? ?]|] eqn:H; simpl;
               [by apply Hne in H| |]
           end; reflexivity.
Qed.

Lemma ordinary_place_parent_witness :
  parentOf goldenGatePark "6252001" (buildIndex [california]) =
    Some "5332921".
Proof.
  rewrite (ordinary_place_parent goldenGatePark "6252001"
             (buildIndex [california])).
  - reflexivity.
  - reflexivity.
  - apply (bool_decide_unpack _). vm_compute. exact I.
Defined.

(** ** Keys of dot-free codes *)

Lemma countDots_app (s t : string) :
  countDots (s +:+ t) = countDots s + countDots t.
Proof. induction s as [|c s IH]; simpl; [done|]. rewrite IH. lia. Qed.

Lemma countDots_adminKey (l : Location) (n : nat) :
  dotFree l → 1 ≤ n ≤ 4 → countDots (adminKey l n) = n.
Proof.
  intros (Hc & H1 & H2 & H3 & H4) Hn.
  destruct n as [|[|[|[|[|n]]]]]; try lia; simpl;
    unfold key1, key2, key3, key4; rewrite !countDots_app;
    rewrite ?Hc, ?H1, ?H2, ?H3, ?H4; reflexivity.
Qed.

(** C1 (as amended). For a record of the file with one of the six
    recognized administrative codes, in a file whose country and admin
    codes contain no separator character: a PCLI record (level 0) has no
    parent, the resolver returns [null]; for the codes ADM1 to ADM5 the
    resolved parent is the id of a division of the file whose level is the
    record's level minus one, or the country's id. *)
Theorem division_parent_one_level_up (allLocations : list Location)
    (c : string) (l : Location) :
  Forall dotFree allLocations →
  l ∈ allLocations →
  isAdminFeature (featureCode l) = true →
  (getAdminLevel l = 0 ∧ parentOf l c (buildIndex allLocations) = None) ∨
  (1 ≤ getAdminLevel l ∧
   ∃ p, parentOf l c (buildIndex allLocations) = Some p ∧
        (p = c ∨
         ∃ r, r ∈ allLocations ∧ isAdminFeature (featureCode r) = true ∧
              geonameid r = p ∧ getAdminLevel r = getAdminLevel l - 1)).
Proof.
  intros Hdots Hl Hadm.
  apply isAdminFeature_true in Hadm as [n Hn].
  rewrite (getAdminLevel_admin _ _ Hn) in *.
  pose proof (FEATURE_LEVELS_le _ _ Hn) as Hle.
  rewrite Forall_forall in Hdots. unfold parentOf.
  destruct (decide (n = 0)) as [->|Hne0].
  { left. by rewrite determineParentForLocation_level0. }
  right. split; [lia|].
  destruct (decide (n = 1)) as [->|Hne].
  { rewrite determineParentForLocation_level1 by done. eauto. }
  rewrite (determineParentForLocation_admin l c _ n Hn) by lia.
  destruct (populated l (n - 1)); [|by eauto].
  destruct (buildIndex allLocations !! adminKey l (n - 1)) as [id|] eqn:Hk;
    [|by eauto].
  destruct (truthy id); [|by eauto].
  exists id. split; [done|]. right.
  destruct (buildIndex_lookup_Some _ _ _ Hk) as (r & m & Hr & Hd & Hkey & ->).
  apply indexedDepth_Some in Hd as (Hradm & Hrl & Hm & _).
  exists r. repeat split; [done..|].
  assert (Hcount : countDots (adminKey l (n - 1)) = countDots (adminKey r m))
    by (by rewrite Hkey).
  rewrite !countDots_adminKey in Hcount by (auto; lia). lia.
Qed.

Lemma division_parent_one_level_up_witness :
  let file := [california; sanFranciscoCounty] in
  (getAdminLevel sanFranciscoCounty = 0 ∧
   parentOf sanFranciscoCounty "6252001" (buildIndex file) = None) ∨
  (1 ≤ getAdminLevel sanFranciscoCounty ∧
   ∃ p, parentOf sanFranciscoCounty "6252001" (buildIndex file) = Some p ∧
        (p = "6252001" ∨
         ∃ r, r ∈ file ∧ isAdminFeature (featureCode r) = true ∧
              geonameid r = p ∧
              getAdminLevel r = getAdminLevel sanFranciscoCounty - 1)).
Proof.
  apply (division_parent_one_level_up [california; sanFranciscoCounty]
           "6252001" sanFranciscoCounty).
  - repeat constructor.
  - set_solver.
  - reflexivity.
Defined.

(** C1 (as stated) fails: a record with the administrative code PCLI has
    no parent at all; the resolver returns [null], which is neither the id
    of a division nor the country's id. *)
Lemma country_row_parent_null :
  isAdminFeature (featureCode andorraRow) = true ∧
  parentOf andorraRow "3041565" (buildIndex [andorraRow]) = None ∧
  ¬ ∃ p, parentOf andorraRow "3041565" (buildIndex [andorraRow]) = Some p.
Proof. repeat split; [intros [p Hp]; vm_compute in Hp; congruence]. Qed.

(** Why the codes must be free of the separator: the keys are plain
    concatenations, so the one-segment key of [dottedState] is spelled like
    the two-segment key of [township], and the level-3 division is resolved
    to a level-1 division. *)
Lemma dotted_code_collides :
  adminKey dottedState 1 = adminKey township 2 ∧
  parentOf township "6252001" (buildIndex [dottedState; township]) =
    Some (geonameid dottedState) ∧
  getAdminLevel dottedState = 1 ∧ getAdminLevel township = 3.
Proof. repeat split; vm_compute; reflexivity. Qed.

(** ** Where a resolved parent comes from *)

Create HintDb geo.

Section Soundness.
Context (c : string) (index : Index).

Lemma sound_ret (r : Parent) :
  r = None ∨ r = Some c → sound c index (ret r).
Proof.
  intros Hr. split; simpl.
  - intros p Hp. left. destruct Hr; congruence.
  - intros key id Hlast. discriminate.
Qed.

Lemma sound_tryKey (guard : bool) (k : string) (rest : Lookup Parent) :
  sound c index rest → sound c index (tryKey guard k rest).
Proof.
  intros [Hres Hlast]. unfold sound, tryKey.
  destruct guard; [|by split].
  destruct (rest index) as [r ks] eqn:Hrest. simpl in *.
  assert (Hmiss : ∀ key id, last (k :: ks) = Some key →
            index !! key = Some id → truthy id = true → key ≠ k → r = Some id).
  { intros key id Hl Hk Hid Hne. apply (Hlast key id); [|done..].
    destruct ks as [|k' ks]; simpl in *; [congruence|done]. }
  destruct (index !! k) as [id0|] eqn:Hk0.
  - destruct (truthy id0) eqn:Hid0; simpl.
    + split.
      * intros p [= <-]. right. by exists k.
      * intros key id [= <-]. congruence.
    + split; [done|]. intros key id Hl Hk Hid.
      apply (Hmiss key id); [done..|]. congruence.
  - split; [done|]. intros key id Hl Hk Hid.
    apply (Hmiss key id); [done..|]. congruence.
Qed.

#[local] Hint Resolve sound_ret sound_tryKey : geo.

Lemma sound_determineParentForLocation (l : Location) :
  sound c index (determineParentForLocation l c).
Proof.
  unfold determineParentForLocation, determineParent.
  destruct (isAdminFeature (featureCode l));
    [destruct (getAdminLevel l =? 0); [auto with geo|];
     destruct (getAdminLevel l =? 1); [auto with geo|]|];
    auto 10 with geo.
Qed.

Lemma parentOf_cases (l : Location) (p : string) :
  parentOf l c index = Some p → p = c ∨ ∃ key, index !! key = Some p.
Proof.
  destruct (sound_determineParentForLocation l) as [Hsound _].
  apply Hsound.
Qed.

End Soundness.

(** ** Records indexed under the same key *)

Lemma indexStep_indexedKey (index : Index) (l : Location) :
  indexStep index l =
    match indexedKey l with
    | Some key => <[key := geonameid l]> index
    | None => index
    end.
Proof.
  rewrite indexStep_indexedDepth. unfold indexedKey.
  by destruct (indexedDepth l).
Qed.

Lemma buildIndex_app (before after : list Location) :
  buildIndex (before ++ after) = fold_left indexStep after (buildIndex before).
Proof. unfold buildIndex. by rewrite fold_left_app. Qed.

Lemma fold_indexStep_other (after : list Location) (index : Index)
    (key : string) :
  Forall (λ r, indexedKey r ≠ Some key) after →
  fold_left indexStep after index !! key = index !! key.
Proof.
  revert index. induction after as [|r after IH]; intros index Hafter;
    [done|].
  apply Forall_cons in Hafter as [Hr Hafter]. simpl.
  rewrite IH by done. rewrite indexStep_indexedKey.
  destruct (indexedKey r) as [k|]; [|done].
  apply lookup_insert_ne. congruence.
Qed.

(** C10. When two division records of one file are indexed under the same
    composite key, the index maps that key to the id of the later one (the
    last record of the file indexed under it), and every parent resolution
    that goes through that key, that is, whose last lookup is that key and
    finds an id there, returns the later record's id. *)
Theorem index_last_write_wins (before between after : list Location)
    (r1 r2 : Location) (key : string) :
  indexedKey r1 = Some key →
  indexedKey r2 = Some key →
  Forall (λ r, indexedKey r ≠ Some key) after →
  let index := buildIndex (before ++ r1 :: between ++ r2 :: after) in
  index !! key = Some (geonameid r2) ∧
  (∀ l c, last (probes l c index) = Some key →
          truthy (geonameid r2) = true →
          parentOf l c index = Some (geonameid r2)).
Proof.
  intros H1 H2 Hafter index.
  assert (Hkey : index !! key = Some (geonameid r2)).
  { unfold index.
    replace (before ++ r1 :: between ++ r2 :: after)
      with ((before ++ r1 :: between) ++ [r2] ++ after)
      by (by rewrite <- app_assoc).
    rewrite buildIndex_app. simpl.
    rewrite fold_indexStep_other by done.
    rewrite indexStep_indexedKey, H2. apply lookup_insert_eq. }
  split; [exact Hkey|].
  intros l c Hlast Hid. unfold parentOf, probes in *.
  destruct (sound_determineParentForLocation c index l) as [_ Hsound].
  by apply (Hsound key).
Qed.

Lemma index_last_write_wins_witness :
  let index :=
    buildIndex ([] ++ california :: [sanFranciscoCounty]
                  ++ californiaReissued :: [goldenGatePark]) in
  index !! "US.CA" = Some "9999999" ∧
  parentOf sanFranciscoCounty "6252001" index = Some "9999999" ∧
  parentOf goldenGatePark "6252001" index = Some "9999999".
Proof.
  destruct (index_last_write_wins [] [sanFranciscoCounty] [goldenGatePark]
              california californiaReissued "US.CA") as [Hkey Hres].
  - reflexivity.
  - reflexivity.
  - repeat constructor. vm_compute. congruence.
  - split; [exact Hkey|]. split; apply Hres; reflexivity.
Defined.

(** ** The second and third pass *)

Lemma processLines_eq (c : string) (lines : list string) (store : Store) :
  processLines c lines store = processLocations c (parseLines lines) store.
Proof. unfold processLines, processLocations. by rewrite firstPass_eq. Qed.

Lemma processCountryZip_eq (country : Country.t) (zipEntries : list ZipEntry)
    (dataEntry : ZipEntry) (store : Store) :
  findDataEntry (Country.iso country) zipEntries = Some dataEntry →
  processCountryZip country (Some zipEntries) store =
    processLocations (Country.geonameid country)
      (parseLines (split newline (getData dataEntry))) store.
Proof. intros Hfind. unfold processCountryZip. by rewrite Hfind, processLines_eq. Qed.

(** The sample lines are read back as the records they were written from. *)
Lemma parseLines_dataFile_sample :
  parseLines (split newline (dataFile [andorraRow; canillo])) =
    [andorraRow; canillo].
Proof. vm_compute. reflexivity. Qed.


Section SecondPass.
Context (c : string) (index : Index).

Lemma childrenOf_cons (p : string) (l : Location) (ls : list Location) :
  childrenOf c index p (l :: ls) =
    if decide (parentOf l c index = Some p)
    then geonameid l :: childrenOf c index p ls
    else childrenOf c index p ls.
Proof. unfold childrenOf. rewrite filter_cons. by case_decide. Qed.

Lemma secondPass_childrenMap (allLocations : list Location)
    (childrenMap : ChildrenMap) (store : Store) (p : string) :
  p ≠ "" →
  (fold_left (secondPassStep c index) allLocations (childrenMap, store)).1
    !! p =
    match childrenOf c index p allLocations with
    | [] => childrenMap !! p
    | ids => Some (default [] (childrenMap !! p) ++ ids)
    end.
Proof.
  intros Hp. revert childrenMap store.
  induction allLocations as [|l ls IH]; intros childrenMap store; [done|].
  simpl. unfold secondPassStep at 2. rewrite IH.
  rewrite childrenOf_cons. simpl.
  destruct (parentOf l c index) as [q|] eqn:Hq.
  - destruct (truthy q) eqn:Htq.
    + unfold pushChild. case_decide as Hqp.
      * injection Hqp as ->. rewrite lookup_insert_eq. simpl.
        destruct (childrenOf c index p ls); [done|].
        by rewrite <- app_assoc.
      * rewrite lookup_insert_ne by congruence. done.
    + apply truthy_false in Htq as ->.
      case_decide as Hqp; [congruence|done].
  - case_decide as Hqp; [congruence|done].
Qed.

Lemma secondPass_store (allLocations : list Location)
    (childrenMap : ChildrenMap) (store : Store) (id : string) :
  (fold_left (secondPassStep c index) allLocations (childrenMap, store)).2
    !! id =
    match last (filter (λ l, geonameid l = id) allLocations) with
    | Some l => Some (NodeFile (locationNode l (parentOf l c index)))
    | None => store !! id
    end.
Proof.
  revert childrenMap store.
  induction allLocations as [|l ls IH]; intros childrenMap store; [done|].
  simpl. unfold secondPassStep at 2. rewrite IH. simpl.
  rewrite filter_cons. case_decide as Hid.
  - destruct (filter (λ l0, geonameid l0 = id) ls) as [|l' ls'] eqn:Hf.
    + simpl. rewrite Hid. apply lookup_insert_eq.
    + change (last (l :: l' :: ls')) with (last (l' :: ls')).
      destruct (last (l' :: ls')) eqn:Hl; [done|].
      by apply last_None in Hl.
  - destruct (last (filter (λ l0, geonameid l0 = id) ls)); [done|].
    by apply lookup_insert_ne.
Qed.



End SecondPass.

Lemma thirdPass_lookup (childrenMap : ChildrenMap) (store : Store)
    (p : string) :
  thirdPass childrenMap store !! p =
    match childrenMap !! p with
    | Some childIds => (λ file, setChildren file childIds) <$> store !! p
    | None => store !! p
    end.
Proof.
  unfold thirdPass. revert p.
  apply (map_fold_weak_ind
           (λ (r : Store) (m : ChildrenMap), ∀ p,
              r !! p = match m !! p with
                       | Some childIds =>
                           (λ file, setChildren file childIds) <$> store !! p
                       | None => store !! p
                       end)).
  - intros p. by rewrite lookup_empty.
  - intros i childIds m r Hi IH p. unfold thirdPassStep.
    pose proof (IH i) as Hri. rewrite Hi in Hri.
    destruct (decide (i = p)) as [->|Hne].
    + rewrite lookup_insert_eq. rewrite Hri.
      destruct (store !! p) as [file|] eqn:Hs; simpl.
      * by rewrite lookup_insert_eq.
      * exact Hri.
    + rewrite (lookup_insert_ne m) by done. rewrite <- IH.
      destruct (r !! i); [|done]. by rewrite lookup_insert_ne.
Qed.

Lemma processLocations_lookup (c : string) (allLocations : list Location)
    (store : Store) (p : string) :
  p ≠ "" →
  let index := buildIndex allLocations in
  let written :=
    match last (filter (λ l, geonameid l = p) allLocations) with
    | Some l => Some (NodeFile (locationNode l (parentOf l c index)))
    | None => store !! p
    end in
  processLocations c allLocations store !! p =
    match childrenOf c index p allLocations with
    | [] => written
    | ids => (λ file, setChildren file ids) <$> written
    end.
Proof.
  intros Hp index written. unfold processLocations. fold index.
  pose proof (secondPass_childrenMap c index allLocations ∅ store p Hp) as Hc.
  pose proof (secondPass_store c index allLocations ∅ store p) as Hs.
  fold (secondPass c index allLocations store) in Hc, Hs.
  destruct (secondPass c index allLocations store) as [childrenMap store'].
  simpl in Hc, Hs. rewrite thirdPass_lookup, Hc, Hs.
  rewrite lookup_empty. by destruct (childrenOf c index p allLocations).
Qed.

Lemma last_filter_Some {A} (P : A → Prop) `{!∀ x, Decision (P x)}
    (xs : list A) (x : A) :
  x ∈ xs → P x → is_Some (last (filter P xs)).
Proof.
  intros Hx HP.
  destruct (last (filter P xs)) as [y|] eqn:Hl; [by eexists|].
  apply last_None in Hl.
  assert (x ∈ filter P xs) as Hin by (by apply list_elem_of_filter).
  rewrite Hl in Hin. by apply not_elem_of_nil in Hin.
Qed.



(** ** The country's own row in its data file *)

(** X21. When no record of the file carries the country's id, processing
    the file changes nothing of the country's node but its children. *)
Lemma country_node_kept (c : string) (allLocations : list Location)
    (store : Store) (n : Node.t) :
  c ≠ "" →
  Forall (λ l, geonameid l ≠ c) allLocations →
  store !! c = Some (NodeFile n) →
  ∃ n', processLocations c allLocations store !! c = Some (NodeFile n') ∧
        Node.id n' = Node.id n ∧ Node.parent n' = Node.parent n ∧
        Node.name n' = Node.name n ∧ Node.level n' = Node.level n ∧
        Node.extra n' = Node.extra n.
Proof.
  intros Hc Hids Hstore. rewrite processLocations_lookup by done.
  assert (Hnone : filter (λ l, geonameid l = c) allLocations = []).
  { induction Hids as [|l ls Hl _ IH]; [done|].
    rewrite filter_cons. by rewrite decide_False. }
  rewrite Hnone, Hstore. simpl.
  destruct (childrenOf c (buildIndex allLocations) c allLocations);
    simpl; eexists; (split; [reflexivity|]); done.
Qed.

(** C9. The failing input: Andorra's archive, whose data file holds the
    row of the country itself (id 3041565, feature code PCLI), as the
    GeoNames dumps do.  Before the archive is processed the node of the
    country carries the attributes written by [createCountryFiles]; after,
    the second pass has overwritten it with the node of that row, and the
    country attributes are gone. *)
Theorem country_attributes_overwritten :
  let before := createCountryFiles [andorra] ∅ in
  let after := processCountryZip andorra (Some andorraZip) before in
  before !! "3041565" =
    Some (NodeFile
      {| Node.id := "3041565"; Node.parent := None; Node.children := [];
         Node.name := "Andorra"; Node.level := 0;
         Node.extra :=
           CountryInfo "AD" "AND" "Andorra la Vella" "" "" "EU" "ca" |}) ∧
  after !! "3041565" =
    Some (NodeFile
      {| Node.id := "3041565"; Node.parent := None;
         Node.children := ["3041203"];
         Node.name := "Principality of Andorra"; Node.level := 0;
         Node.extra := PlaceInfo "" "" "" |}).
Proof. split; vm_compute; reflexivity. Qed.

Lemma climb_self_parent (store : Store) (id : string) (hops : nat) :
  storedParent store id = Some id → climb store hops id = id.
Proof.
  intros Hself. induction hops as [|hops IH]; [done|].
  simpl. by rewrite Hself.
Qed.

(** C5. The failing input: Puerto Rico's archive, whose data file holds
    the row of the territory itself (id 4566966) with the feature code
    PCLD, which is not one of the six recognized codes.  The row is
    resolved like an ordinary place, falls back to the country id, which is
    its own id, and the stored node is its own parent and its own child at
    level 2: its level is not greater than its parent's, and following
    parent links from it, however many, stays at this level-2 node. *)
Theorem country_row_becomes_own_parent :
  let after :=
    processCountryZip puertoRico (Some puertoRicoZip)
      (createCountryFiles [puertoRico] ∅) in
  after !! "4566966" =
    Some (NodeFile
      {| Node.id := "4566966"; Node.parent := Some "4566966";
         Node.children := ["4566966"]; Node.name := "Puerto Rico";
         Node.level := 2; Node.extra := PlaceInfo "" "" "" |}) ∧
  (∀ hops, climb after hops "4566966" = "4566966" ∧
           storedLevel after (climb after hops "4566966") = Some 2).
Proof.
  intros after.
  assert (Hnode : after !! "4566966" =
            Some (NodeFile
              {| Node.id := "4566966"; Node.parent := Some "4566966";
                 Node.children := ["4566966"]; Node.name := "Puerto Rico";
                 Node.level := 2; Node.extra := PlaceInfo "" "" "" |}))
    by (vm_compute; reflexivity).
  clearbody after. split; [exact Hnode|].
  intros hops. rewrite (climb_self_parent after "4566966" hops).
  - unfold storedLevel. by rewrite Hnode.
  - unfold storedParent. by rewrite Hnode.
Qed.

(** C8. The failing input: an archive that holds [US.txt] after another
    text entry.  [find] takes the first entry that passes either test, so
    the other entry is consumed although an entry with the exact name
    exists. *)
Theorem first_text_entry_wins :
  (∃ entry, entry ∈ shuffledZip ∧ entryName entry = "US.txt") ∧
  entryName <$> findDataEntry "US" shuffledZip = Some "notes.txt".
Proof.
  split; [|reflexivity].
  eexists. split; [apply list_elem_of_further, list_elem_of_here|reflexivity].
Qed.

(** * The inherited properties of the feature table *)

Lemma inheritedProperty_not_own (code : string) :
  inheritedProperty code = true → FEATURE_LEVELS !! code = None.
Proof.
  unfold inheritedProperty. intros Hin%bool_decide_eq_true.
  unfold inheritedKeys in Hin.
  repeat (apply elem_of_cons in Hin as [->|Hin]; [by vm_compute|]).
  by apply not_elem_of_nil in Hin.
Qed.

Lemma Js_featureLevel_own (code : string) :
  inheritedProperty code = false →
  Js.featureLevel code = Js.Number <$> FEATURE_LEVELS !! code.
Proof.
  intros Hcode. unfold Js.featureLevel. rewrite Hcode.
  by destruct (FEATURE_LEVELS !! code).
Qed.

(** On a feature code that is not an inherited property name the two
    classifiers agree. *)
Lemma Js_getAdminLevel_agrees (l : Location) :
  inheritedProperty (featureCode l) = false →
  Js.getAdminLevel l = Js.Number (getAdminLevel l).
Proof.
  intros Hcode. unfold Js.getAdminLevel, getAdminLevel.
  rewrite Js_featureLevel_own by done.
  destruct (FEATURE_LEVELS !! featureCode l); simpl; [done|].
  by case_truthy.
Qed.

(** And so do the two resolvers. *)
Lemma Js_determineParentForLocation_agrees (l : Location) (c : string)
    (index : Index) :
  inheritedProperty (featureCode l) = false →
  Js.determineParentForLocation l c index =
    determineParentForLocation l c index.
Proof.
  intros Hcode.
  unfold Js.determineParentForLocation, determineParentForLocation,
    isAdminFeature.
  rewrite Js_featureLevel_own by done.
  destruct (FEATURE_LEVELS !! featureCode l) as [n|] eqn:Hn; simpl; [|done].
  unfold Js.determineParent, determineParent.
  by rewrite Js_getAdminLevel_agrees.
Qed.

(** On an inherited property name the code returns the inherited value as
    the level, takes the record for a division, finds none of the levels 0
    to 5 and answers the country without reading the index. *)
Lemma Js_inherited (l : Location) (c : string) (index : Index) :
  inheritedProperty (featureCode l) = true →
  Js.getAdminLevel l = Js.Inherited (featureCode l) ∧
  Js.determineParentForLocation l c index = (Some c, []).
Proof.
  intros Hcode. pose proof (inheritedProperty_not_own _ Hcode) as Hown.
  assert (Hlevel : Js.getAdminLevel l = Js.Inherited (featureCode l)).
  { unfold Js.getAdminLevel, Js.featureLevel. by rewrite Hown, Hcode. }
  split; [done|].
  unfold Js.determineParentForLocation, Js.featureLevel.
  rewrite Hown, Hcode. unfold Js.determineParent. by rewrite Hlevel.
Qed.

(** Off the inherited property names the classifier is the one the
    specification words. *)
Lemma Js_getAdminLevel_specLevel (l : Location) :
  inheritedProperty (featureCode l) = false →
  Js.getAdminLevel l = Js.Number (specLevel l) ∧ specLevel l ≤ 5.
Proof.
  intros Hcode. rewrite Js_getAdminLevel_agrees by done.
  destruct (getAdminLevel_specLevel l) as [<- Hle]. done.
Qed.

(** Off the inherited property names an ordinary place is resolved along
    its populated chains, as the specification words it. *)
Lemma Js_ordinary_place_parent (l : Location) (c : string) (index : Index) :
  inheritedProperty (featureCode l) = false →
  isAdminFeature (featureCode l) = false →
  map_Forall (λ _ id, id ≠ "") index →
  (Js.determineParentForLocation l c index).1 =
    Some (chainParent l c index).
Proof.
  intros Hcode Hadm Hids.
  rewrite Js_determineParentForLocation_agrees by done.
  by apply (ordinary_place_parent l c index).
Qed.

(** C6. The failing input: a place whose feature code is [constructor],
    with admin1 populated.  [constructor] is none of the six codes of the
    table, so the level should be 2; but [FEATURE_LEVELS['constructor']]
    is the function every object inherits, it is not [undefined], and
    [getAdminLevel] returns that function instead of a level. *)
Theorem inherited_feature_code_level :
  FEATURE_LEVELS !! featureCode constructorPlace = None ∧
  specLevel constructorPlace = 2 ∧
  Js.getAdminLevel constructorPlace = Js.Inherited "constructor" ∧
  ∀ n, Js.getAdminLevel constructorPlace ≠ Js.Number n.
Proof.
  assert (Hlevel : Js.getAdminLevel constructorPlace
                   = Js.Inherited "constructor")
    by (by apply (Js_inherited constructorPlace "" ∅)).
  split; [by vm_compute|]. split; [by vm_compute|]. split; [done|].
  intros n. by rewrite Hlevel.
Qed.

(** C2. The failing input: the same place, in a file whose index holds
    California under [US.CA].  Its feature code is none of the six
    recognized codes and its one-segment chain is populated and present
    in the index, so its parent should be California; but the test
    [FEATURE_LEVELS[code] !== undefined] passes on the inherited property,
    the record is handed to [determineParent], no level from 0 to 5
    matches, and the country is returned without any lookup. *)
Theorem inherited_feature_code_parent :
  FEATURE_LEVELS !! featureCode constructorPlace = None ∧
  populated constructorPlace 1 = true ∧
  buildIndex [california] !! adminKey constructorPlace 1 = Some "5332921" ∧
  chainParent constructorPlace "6252001" (buildIndex [california])
    = "5332921" ∧
  Js.determineParentForLocation constructorPlace "6252001"
    (buildIndex [california]) = (Some "6252001", []).
Proof.
  split; [by vm_compute|]. split; [by vm_compute|].
  split; [by vm_compute|]. split; [by vm_compute|].
  by apply Js_inherited.
Qed.

(** * Further properties of the code *)

(** ** [split] *)

Lemma split_nonempty (sep : ascii) (s : string) : split sep s ≠ [].
Proof.
  induction s as [|c s IH]; simpl; [done|].
  destruct (Ascii.eqb c sep); [done|]. by destruct (split sep s).
Qed.

Lemma split_noChar (sep : ascii) (s : string) :
  noChar sep s = true → split sep s = [s].
Proof.
  induction s as [|c s IH]; simpl; [done|].
  intros [Hc Hs]%andb_prop. apply negb_true_iff in Hc.
  by rewrite Hc, IH.
Qed.

Lemma split_app_sep (sep : ascii) (x rest : string) :
  noChar sep x = true →
  split sep (x +:+ String sep rest) = x :: split sep rest.
Proof.
  induction x as [|c x IH]; simpl.
  - intros _. by rewrite Ascii.eqb_refl.
  - intros [Hc Hx]%andb_prop. apply negb_true_iff in Hc.
    by rewrite Hc, IH.
Qed.

Lemma split_concat (sep : ascii) (fields : list string) :
  fields ≠ [] →
  Forall (λ f, noChar sep f = true) fields →
  split sep (String.concat (String sep EmptyString) fields) = fields.
Proof.
  intros Hne Hfree. induction Hfree as [|f fields Hf Hfree IH]; [done|].
  destruct fields as [|g fields].
  - simpl. by apply split_noChar.
  - change (String.concat (String sep EmptyString) (f :: g :: fields))
      with (f +:+ String sep (String.concat (String sep EmptyString)
                                 (g :: fields))).
    rewrite split_app_sep by done. by rewrite IH.
Qed.

(** The pieces of a split hold no separator, and no character the string
    did not hold. *)
Lemma split_pieces (sep c : ascii) (s : string) :
  c = sep ∨ noChar c s = true →
  Forall (λ f, noChar c f = true) (split sep s).
Proof.
  induction s as [|a s IH]; simpl.
  - intros _. by repeat constructor.
  - intros Hc. destruct (Ascii.eqb a sep) eqn:Ha.
    + constructor; [done|]. apply IH.
      destruct Hc as [->|[_ Hs]%andb_prop]; auto.
    + assert (Hrest : c = sep ∨ noChar c s = true)
        by (destruct Hc as [->|[_ Hs]%andb_prop]; auto).
      specialize (IH Hrest).
      assert (Hac : negb (Ascii.eqb a c) = true)
        by (destruct Hc as [->|[Hac _]%andb_prop]; [by rewrite Ha|done]).
      destruct (split sep s) as [|f fs].
      * constructor; [|done]. simpl. by rewrite Hac.
      * apply Forall_cons in IH as [Hf Hfs].
        constructor; [|done]. simpl. by rewrite Hf, Hac.
Qed.

(** ** parseGeonamesLine *)

(** A line is rejected exactly when it splits into fewer than 19
    fields. *)
Lemma parseGeonamesLine_None (line : string) :
  parseGeonamesLine line = None ↔ length (split tab line) < 19.
Proof.
  unfold parseGeonamesLine. generalize (split tab line). intros fields.
  do 19 (destruct fields as [|? fields]; [simpl; split; [lia|done]|]).
  simpl. split; [done|lia].
Qed.

Lemma split_length (sep : ascii) (s : string) :
  length (split sep s) = S (countChar sep s).
Proof.
  induction s as [|c s IH]; simpl; [done|].
  destruct (Ascii.eqb c sep); simpl; [by rewrite IH|].
  pose proof (split_nonempty sep s) as Hne.
  by destruct (split sep s).
Qed.

(** X1. A line of a data file is rejected exactly when it holds fewer
    than 18 tab characters, whatever else it holds. *)
Theorem parseGeonamesLine_None_tabs (line : string) :
  parseGeonamesLine line = None ↔ countChar tab line < 18.
Proof.
  rewrite parseGeonamesLine_None, split_length. lia.
Qed.

(** X2. A line made of the 19 columns of a record joined by tabs, followed
    or not by further columns, is read back as that record, provided no
    column holds a tab; the further columns are ignored. *)
Theorem parseGeonamesLine_joinTabs (l : Location) (more : list string) :
  Forall (λ f, noChar tab f = true) (locationFields l ++ more) →
  parseGeonamesLine (joinTabs (locationFields l ++ more)) = Some l.
Proof.
  intros Hfree. unfold parseGeonamesLine, joinTabs.
  rewrite split_concat by (done || by destruct l).
  by destruct l.
Qed.

Lemma parseGeonamesLine_joinTabs_witness :
  parseGeonamesLine (joinTabs (locationFields california ++ ["extra"])) =
    Some california.
Proof.
  apply (parseGeonamesLine_joinTabs california ["extra"]).
  repeat constructor.
Defined.

(** ** parseCountryInfo and parseCountryCodes *)

Lemma noChar_app (c : ascii) (s t : string) :
  noChar c (s +:+ t) = noChar c s && noChar c t.
Proof.
  induction s as [|a s IH]; simpl; [done|]. by rewrite IH, andb_assoc.
Qed.

Lemma noChar_concat (c sep : ascii) (fields : list string) :
  Ascii.eqb sep c = false →
  Forall (λ f, noChar c f = true) fields →
  noChar c (String.concat (String sep EmptyString) fields) = true.
Proof.
  intros Hsep Hfree. induction Hfree as [|f fields Hf Hfree IH]; [done|].
  destruct fields as [|g fields]; [done|].
  change (String.concat (String sep EmptyString) (f :: g :: fields))
    with (f +:+ String sep (String.concat (String sep EmptyString)
                               (g :: fields))).
  rewrite noChar_app, Hf. cbn [noChar andb]. by rewrite Hsep, IH.
Qed.

(** What one line contributes: nothing, or one country whose code is the
    first column of the line. *)
Lemma parseCountryInfoStep_cases (countries : list Country.t)
    (line : string) :
  parseCountryInfoStep countries line = countries ∨
  ∃ country rest,
    parseCountryInfoStep countries line = countries ++ [country] ∧
    isCommentOrBlank line = false ∧
    split tab line = Country.iso country :: rest.
Proof.
  unfold parseCountryInfoStep.
  destruct (isCommentOrBlank line); [by left|].
  destruct (split tab line) as [|f0 fields]; [by left|].
  do 17 (destruct fields as [|? fields]; [by left|]).
  right. by eexists _, _.
Qed.

(** X3. Every country the transformer reads from countryInfo.txt under a
    non-empty code is a country the downloader reads from the same text, in
    the same order: the non-empty codes of [parseCountryInfo] are a
    sublist of the codes of [parseCountryCodes]. *)
Theorem parseCountryInfo_codes_sublist (content : string) :
  filter (λ code, code ≠ "") (Country.iso <$> parseCountryInfo content)
    `sublist_of` parseCountryCodes content.
Proof.
  unfold parseCountryInfo, parseCountryCodes.
  generalize (split newline content). intros lines.
  assert (Hgen : ∀ countries codes,
    filter (λ code, code ≠ "") (Country.iso <$> countries)
      `sublist_of` codes →
    filter (λ code, code ≠ "")
      (Country.iso <$> fold_left parseCountryInfoStep lines countries)
      `sublist_of` fold_left parseCountryCodesStep lines codes);
    [|by apply Hgen].
  induction lines as [|line lines IH]; intros countries codes Hsub; [done|].
  simpl. apply IH.
  destruct (parseCountryInfoStep_cases countries line)
    as [->|(country & rest & -> & Hline & Hsplit)].
  - unfold parseCountryCodesStep.
    destruct (isCommentOrBlank line); [done|].
    destruct (split tab line) as [|code ?]; [done|].
    destruct (truthy code); [|done]. by apply sublist_inserts_r.
  - unfold parseCountryCodesStep. rewrite Hline, Hsplit.
    rewrite fmap_app, filter_app. simpl. rewrite filter_cons, filter_nil.
    destruct (truthy (Country.iso country)) eqn:Hiso.
    + apply truthy_true in Hiso. rewrite decide_True by done.
      by apply sublist_app.
    + apply truthy_false in Hiso. rewrite decide_False by (by intros []).
      by rewrite app_nil_r.
Qed.

(** X4. The downloader never asks for an empty country code: every code
    of [parseCountryCodes] is a non-empty first column, and holds neither
    a tab nor a line feed. *)
Theorem parseCountryCodes_codes (content : string) :
  Forall (λ code, code ≠ "" ∧ noChar tab code = true ∧
                  noChar newline code = true)
    (parseCountryCodes content).
Proof.
  unfold parseCountryCodes.
  pose proof (split_pieces newline newline content (or_introl eq_refl))
    as Hlines.
  revert Hlines. generalize (split newline content). intros lines Hlines.
  assert (Hgen : ∀ codes,
    Forall (λ code, code ≠ "" ∧ noChar tab code = true ∧
                    noChar newline code = true) codes →
    Forall (λ code, code ≠ "" ∧ noChar tab code = true ∧
                    noChar newline code = true)
      (fold_left parseCountryCodesStep lines codes));
    [|by apply Hgen].
  induction Hlines as [|line lines Hline Hlines IH]; intros codes Hcodes;
    [done|].
  simpl. apply IH. unfold parseCountryCodesStep.
  destruct (isCommentOrBlank line); [done|].
  pose proof (split_pieces tab tab line (or_introl eq_refl)) as Htab.
  pose proof (split_pieces tab newline line (or_intror Hline)) as Hnl.
  destruct (split tab line) as [|code rest]; [done|].
  destruct (truthy code) eqn:Hcode; [|done].
  apply Forall_app. split; [done|].
  apply Forall_cons in Htab as [Htab _]. apply Forall_cons in Hnl as [Hnl _].
  apply truthy_true in Hcode. by repeat constructor.
Qed.

Lemma parseCountryInfoStep_joinTabs (countries : list Country.t)
    (country : Country.t) :
  writableCountry country →
  parseCountryInfoStep countries (joinTabs (countryFields country)) =
    countries ++ [country].
Proof.
  intros [Hfree Hline]. unfold parseCountryInfoStep. rewrite Hline.
  unfold joinTabs. rewrite split_concat.
  - by destruct country.
  - by destruct country.
  - eapply Forall_impl; [exact Hfree|]. by intros f [? ?].
Qed.

(** X5. A table written one country per line, columns joined by tabs and
    lines by line feeds, is read back by [parseCountryInfo] as the same
    countries in the same order, provided no column holds a tab or a line
    feed and no line is a comment or blank. *)
Theorem parseCountryInfo_joinLines (countries : list Country.t) :
  Forall writableCountry countries →
  parseCountryInfo
    (joinLines ((λ c, joinTabs (countryFields c)) <$> countries)) =
    countries.
Proof.
  intros Hw. unfold parseCountryInfo, joinLines.
  destruct countries as [|country countries]; [done|].
  rewrite split_concat.
  - assert (Hgen : ∀ cs acc, Forall writableCountry cs →
      fold_left parseCountryInfoStep
        ((λ c, joinTabs (countryFields c)) <$> cs) acc = acc ++ cs);
      [|by apply (Hgen _ [])].
    induction cs as [|c cs IH]; intros acc Hcs.
    + by rewrite app_nil_r.
    + apply Forall_cons in Hcs as [Hc Hcs]. simpl.
      rewrite parseCountryInfoStep_joinTabs by done.
      rewrite IH by done. by rewrite <- app_assoc.
  - done.
  - apply Forall_fmap. eapply Forall_impl; [exact Hw|].
    intros c [Hfree _]. simpl. apply noChar_concat; [done|].
    eapply Forall_impl; [exact Hfree|]. by intros f [? ?].
Qed.

Lemma parseCountryInfo_joinLines_witness :
  parseCountryInfo
    (joinLines ((λ c, joinTabs (countryFields c)) <$> [andorra; puertoRico]))
    = [andorra; puertoRico].
Proof.
  apply (parseCountryInfo_joinLines [andorra; puertoRico]).
  repeat constructor.
Defined.

(** ** What processing a file writes *)

Lemma secondPass_childrenMap_empty (c : string) (index : Index)
    (allLocations : list Location) (childrenMap : ChildrenMap)
    (store : Store) :
  (fold_left (secondPassStep c index) allLocations (childrenMap, store)).1
    !! "" = childrenMap !! "".
Proof.
  revert childrenMap store.
  induction allLocations as [|l ls IH]; intros childrenMap store; [done|].
  simpl. unfold secondPassStep at 2. rewrite IH. simpl.
  destruct (parentOf l c index) as [q|]; [|done].
  destruct (truthy q) eqn:Hq; [|done].
  apply truthy_true in Hq. unfold pushChild. by rewrite lookup_insert_ne.
Qed.

(** Every file of the store after the three passes. *)
Lemma processLocations_lookup_all (c : string)
    (allLocations : list Location) (store : Store) (p : string) :
  let index := buildIndex allLocations in
  processLocations c allLocations store !! p =
    match attached c index p allLocations with
    | [] => written c index allLocations store p
    | ids => (λ file, setChildren file ids)
               <$> written c index allLocations store p
    end.
Proof.
  intros index. unfold attached. case_decide as Hp.
  - subst p. unfold processLocations. fold index.
    pose proof (secondPass_childrenMap_empty c index allLocations ∅ store)
      as Hc.
    pose proof (secondPass_store c index allLocations ∅ store "") as Hs.
    fold (secondPass c index allLocations store) in Hc, Hs.
    destruct (secondPass c index allLocations store) as [childrenMap store'].
    simpl in Hc, Hs. by rewrite thirdPass_lookup, Hc, Hs, lookup_empty.
  - by apply processLocations_lookup.
Qed.

Lemma filter_id_nil (allLocations : list Location) (id : string) :
  Forall (λ l, geonameid l ≠ id) allLocations →
  filter (λ l, geonameid l = id) allLocations = [].
Proof.
  induction 1 as [|l ls Hl _ IH]; [done|].
  rewrite filter_cons. by rewrite decide_False.
Qed.

(** A resolved parent is the country or the id of a record of the file. *)
Lemma parentOf_country_or_record (c : string)
    (allLocations : list Location) (l : Location) (p : string) :
  parentOf l c (buildIndex allLocations) = Some p →
  p = c ∨ ∃ r, r ∈ allLocations ∧ geonameid r = p ∧
               is_Some (indexedDepth r).
Proof.
  intros Hp. destruct (parentOf_cases _ _ _ _ Hp) as [->|[key Hkey]];
    [by left|right].
  apply buildIndex_lookup_Some in Hkey as (r & n & Hr & Hd & _ & ->).
  exists r. by rewrite Hd.
Qed.

Lemma attached_nil (c : string) (allLocations : list Location)
    (k : string) :
  k ≠ c →
  Forall (λ l, geonameid l ≠ k) allLocations →
  attached c (buildIndex allLocations) k allLocations = [].
Proof.
  intros Hc Hids. unfold attached. case_decide; [done|].
  unfold childrenOf.
  destruct (filter _ allLocations) as [|l ls] eqn:Hf; [done|].
  assert (Hl : l ∈ filter (λ l, parentOf l c (buildIndex allLocations)
                                  = Some k) allLocations)
    by (rewrite Hf; apply list_elem_of_here).
  apply list_elem_of_filter in Hl as [Hp _].
  apply parentOf_country_or_record in Hp as [->|(r & Hr & Hid & _)];
    [done|].
  rewrite Forall_forall in Hids. by destruct (Hids r Hr).
Qed.

Lemma processLocations_frame (c : string) (allLocations : list Location)
    (store : Store) (k : string) :
  k ≠ c →
  Forall (λ l, geonameid l ≠ k) allLocations →
  processLocations c allLocations store !! k = store !! k.
Proof.
  intros Hk Hids.
  rewrite processLocations_lookup_all, attached_nil by done.
  unfold written. by rewrite filter_id_nil.
Qed.

(** X6. Processing a country's archive changes no file of the store but
    the country's own and those named after the ids of the records of its
    data file. *)
Theorem processCountryZip_frame (country : Country.t)
    (zip : option (list ZipEntry)) (store : Store) (k : string) :
  k ≠ Country.geonameid country →
  (∀ zipEntries dataEntry,
     zip = Some zipEntries →
     findDataEntry (Country.iso country) zipEntries = Some dataEntry →
     Forall (λ l, geonameid l ≠ k)
       (parseLines (split newline (getData dataEntry)))) →
  processCountryZip country zip store !! k = store !! k.
Proof.
  intros Hk Hids. destruct zip as [zipEntries|]; [|done].
  destruct (findDataEntry (Country.iso country) zipEntries)
    as [dataEntry|] eqn:Hfind; [|by unfold processCountryZip; rewrite Hfind].
  rewrite (processCountryZip_eq _ _ _ _ Hfind).
  specialize (Hids _ _ eq_refl Hfind).
  by apply processLocations_frame.
Qed.

Lemma processCountryZip_frame_witness :
  processCountryZip andorra (Some andorraZip)
      (createCountryFiles [andorra; puertoRico] ∅) !! "4566966" =
    createCountryFiles [andorra; puertoRico] ∅ !! "4566966".
Proof.
  apply (processCountryZip_frame andorra (Some andorraZip)).
  - discriminate.
  - intros zipEntries dataEntry [= <-] [= <-].
    vm_compute. repeat constructor; discriminate.
Defined.

(** X7. For a file whose records all have a feature code that is not an
    inherited property name and an id that is a string of digits, and a
    country whose id is one too: after the file is processed, the file
    stored under an id carried by some record is the node of the last
    record carrying it (its name, level and resolved parent), with the ids
    of the records resolved to that id as children, in file order. *)
Theorem processLocations_node (c : string) (allLocations : list Location)
    (store : Store) (id : string) (l : Location) :
  Forall (λ r, inheritedProperty (featureCode r) = false ∧
               numericId (geonameid r) = true) allLocations →
  numericId c = true →
  last (filter (λ r, geonameid r = id) allLocations) = Some l →
  let index := buildIndex allLocations in
  Js.getAdminLevel l = Js.Number (getAdminLevel l) ∧
  (Js.determineParentForLocation l c index).1 = parentOf l c index ∧
  processLocations c allLocations store !! id =
    Some (NodeFile
      {| Node.id := id;
         Node.parent := parentOf l c index;
         Node.children := childrenOf c index id allLocations;
         Node.name := name l;
         Node.level := getAdminLevel l;
         Node.extra :=
           PlaceInfo (latitude l) (longitude l) (population l) |}).
Proof.
  intros Hfile _ Hlast index.
  pose proof Hlast as Hl.
  apply last_Some_elem_of, list_elem_of_filter in Hl as [Hid Hl].
  rewrite Forall_forall in Hfile. destruct (Hfile l Hl) as [Hcode Hnum].
  split; [by apply Js_getAdminLevel_agrees|].
  split; [by rewrite Js_determineParentForLocation_agrees|].
  assert (Hne : id ≠ "").
  { rewrite <- Hid. intros Hempty. by rewrite Hempty in Hnum. }
  rewrite processLocations_lookup_all. fold index.
  unfold written, attached. rewrite Hlast, decide_False by done.
  unfold locationNode. rewrite Hid.
  by destruct (childrenOf c index id allLocations).
Qed.

Lemma processLocations_node_witness :
  processLocations "6252001" usRecords
      (createCountryFiles [unitedStates] ∅) !! "5332921" =
    Some (NodeFile
      {| Node.id := "5332921"; Node.parent := Some "6252001";
         Node.children := ["5391959"; "5352844"; "5391959"];
         Node.name := "California"; Node.level := 1;
         Node.extra := PlaceInfo "" "" "" |}).
Proof.
  apply (processLocations_node "6252001" usRecords
           (createCountryFiles [unitedStates] ∅) "5332921" california).
  - repeat constructor.
  - reflexivity.
  - reflexivity.
Defined.

Lemma written_is_Some (c : string) (allLocations : list Location)
    (store : Store) (l : Location) (p : string) :
  is_Some (store !! c) →
  parentOf l c (buildIndex allLocations) = Some p →
  is_Some (written c (buildIndex allLocations) allLocations store p).
Proof.
  intros Hc Hp. unfold written.
  apply parentOf_country_or_record in Hp as [->|(r & Hr & <- & _)].
  - by destruct (last _).
  - destruct (last_filter_Some (λ l, geonameid l = geonameid r)
                allLocations r Hr eq_refl) as [l' ->].
    by eexists.
Qed.

Lemma processLocations_is_Some (c : string) (allLocations : list Location)
    (store : Store) (p : string) :
  is_Some (written c (buildIndex allLocations) allLocations store p) →
  is_Some (processLocations c allLocations store !! p).
Proof.
  intros [file Hfile]. rewrite processLocations_lookup_all, Hfile.
  by destruct (attached _ _ _ _).
Qed.

(** The parent link of the file stored under a record's id is the parent
    resolved for the last record carrying that id. *)
Lemma storedParent_processLocations (c : string)
    (allLocations : list Location) (store : Store) (id : string)
    (l : Location) :
  last (filter (λ r, geonameid r = id) allLocations) = Some l →
  storedParent (processLocations c allLocations store) id =
    parentOf l c (buildIndex allLocations).
Proof.
  intros Hlast. unfold storedParent.
  rewrite processLocations_lookup_all. unfold written. rewrite Hlast.
  by destruct (attached _ _ _ _).
Qed.

(** X8. No parent link written for a record dangles: when the country's
    node exists beforehand, the parent stored for any id carried by a
    record names a file of the store. *)
Theorem stored_parent_exists (c : string) (allLocations : list Location)
    (store : Store) (l : Location) (p : string) :
  is_Some (store !! c) →
  l ∈ allLocations →
  storedParent (processLocations c allLocations store) (geonameid l)
    = Some p →
  is_Some (processLocations c allLocations store !! p).
Proof.
  intros Hc Hl Hp.
  destruct (last_filter_Some (λ r, geonameid r = geonameid l)
              allLocations l Hl eq_refl) as [l' Hlast].
  rewrite (storedParent_processLocations _ _ _ _ _ Hlast) in Hp.
  apply processLocations_is_Some. by eapply written_is_Some.
Qed.

Lemma stored_parent_exists_witness :
  is_Some (processLocations "6252001" usRecords
             (createCountryFiles [unitedStates] ∅) !! "5332921").
Proof.
  apply (stored_parent_exists "6252001" usRecords
           (createCountryFiles [unitedStates] ∅) goldenGatePark "5332921").
  - eexists. vm_compute. reflexivity.
  - unfold usRecords. set_solver.
  - vm_compute. reflexivity.
Defined.

Lemma last_filter_NoDup (allLocations : list Location) (l : Location) :
  NoDup (geonameid <$> allLocations) →
  l ∈ allLocations →
  last (filter (λ r, geonameid r = geonameid l) allLocations) = Some l.
Proof.
  induction allLocations as [|r rs IH]; [by intros _ ?%not_elem_of_nil|].
  rewrite fmap_cons, NoDup_cons. intros [Hr Hrs] Hl.
  rewrite filter_cons.
  apply elem_of_cons in Hl as [->|Hl].
  - rewrite decide_True by done.
    rewrite filter_id_nil; [done|].
    apply Forall_forall. intros r' Hr' Heq. apply Hr.
    rewrite <- Heq. by apply list_elem_of_fmap_2.
  - rewrite decide_False.
    + by apply IH.
    + intros Heq. apply Hr. rewrite Heq. by apply list_elem_of_fmap_2.
Qed.




(** ** Running a file twice, and files without records *)

Lemma setChildren_setChildren (file : File) (ids ids' : list string) :
  setChildren (setChildren file ids) ids' = setChildren file ids'.
Proof. by destruct file. Qed.

(** X10. Processing the same records a second time changes nothing: the
    store after two runs is the store after one. *)
Theorem processLocations_idempotent (c : string)
    (allLocations : list Location) (store : Store) :
  processLocations c allLocations (processLocations c allLocations store) =
    processLocations c allLocations store.
Proof.
  apply map_eq. intros p.
  rewrite (processLocations_lookup_all c allLocations
             (processLocations c allLocations store)).
  unfold written at 1 2.
  destruct (last (filter (λ l, geonameid l = p) allLocations)) as [l|]
    eqn:Hlast.
  - rewrite processLocations_lookup_all. unfold written. by rewrite Hlast.
  - rewrite !processLocations_lookup_all. unfold written. rewrite Hlast.
    destruct (attached c (buildIndex allLocations) p allLocations); [done|].
    destruct (store !! p); [|done]. simpl.
    by rewrite setChildren_setChildren.
Qed.

Lemma parseGeonamesLine_short (line : string) :
  length (split tab line) < 19 → parseGeonamesLine line = None.
Proof.
  unfold parseGeonamesLine. generalize (split tab line). intros fields.
  do 19 (destruct fields as [|? fields]; [done|]). simpl. lia.
Qed.

Lemma parseLines_nil (lines : list string) :
  Forall (λ line, isBlank line = true ∨ length (split tab line) < 19) lines →
  parseLines lines = [].
Proof.
  induction 1 as [|line lines Hline _ IH]; [done|].
  change (parseLines (line :: lines))
    with (match (if isBlank line then None else parseGeonamesLine line) with
          | Some l => l :: parseLines lines
          | None => parseLines lines
          end).
  rewrite IH. destruct (isBlank line) eqn:Hb; [done|].
  destruct Hline as [?|Hshort]; [done|].
  by rewrite parseGeonamesLine_short.
Qed.

Lemma processLocations_nil (c : string) (store : Store) :
  processLocations c [] store = store.
Proof. unfold processLocations. simpl. apply map_fold_empty. Qed.

(** X11. An archive that is missing, that holds no data entry, or whose
    data entry holds only blank lines and lines of fewer than 19 fields
    (an empty file, for one) leaves the store as it was. *)
Theorem processCountryZip_nothing_to_do (country : Country.t)
    (zip : option (list ZipEntry)) (store : Store) :
  (∀ zipEntries dataEntry,
     zip = Some zipEntries →
     findDataEntry (Country.iso country) zipEntries = Some dataEntry →
     Forall (λ line, isBlank line = true ∨ length (split tab line) < 19)
       (split newline (getData dataEntry))) →
  processCountryZip country zip store = store.
Proof.
  intros Hlines. destruct zip as [zipEntries|]; [|done].
  destruct (findDataEntry (Country.iso country) zipEntries)
    as [dataEntry|] eqn:Hfind; [|by unfold processCountryZip; rewrite Hfind].
  rewrite (processCountryZip_eq _ _ _ _ Hfind).
  rewrite parseLines_nil by (by eapply Hlines).
  apply processLocations_nil.
Qed.

Lemma processCountryZip_nothing_to_do_witness :
  processCountryZip unitedStates (Some emptyZip)
      (createCountryFiles [unitedStates] ∅) =
    createCountryFiles [unitedStates] ∅.
Proof.
  apply (processCountryZip_nothing_to_do unitedStates (Some emptyZip)).
  intros zipEntries dataEntry [= <-] [= <-].
  vm_compute. repeat constructor; (by left) || (right; lia).
Defined.

(** ** Levels along parent links *)

Lemma getAdminLevel_le (l : Location) : getAdminLevel l ≤ 5.
Proof.
  unfold getAdminLevel.
  destruct (FEATURE_LEVELS !! featureCode l) as [n|] eqn:Hn.
  - by apply FEATURE_LEVELS_le in Hn.
  - case_truthy; lia.
Qed.

Lemma getAdminLevel_zero (l : Location) :
  getAdminLevel l = 0 → FEATURE_LEVELS !! featureCode l = Some 0.
Proof.
  unfold getAdminLevel.
  destruct (FEATURE_LEVELS !! featureCode l) as [n|]; [by intros ->|].
  case_truthy; lia.
Qed.

Lemma getAdminLevel_ordinary (l : Location) (m : nat) :
  isAdminFeature (featureCode l) = false →
  1 ≤ getAdminLevel l ∧
  (1 ≤ m ≤ 4 → populated l m = true → m < getAdminLevel l).
Proof.
  intros Hadm%isAdminFeature_false. unfold getAdminLevel. rewrite Hadm.
  split; [case_truthy; lia|]. intros Hm.
  destruct m as [|[|[|[|[|m]]]]]; try lia; simpl;
    destruct (truthy (admin1Code l)), (truthy (admin2Code l)),
      (truthy (admin3Code l)), (truthy (admin4Code l)); simpl;
    intros; (done || lia).
Qed.

Lemma tryKey_is_Some (guard : bool) (key : string) (rest : Lookup Parent)
    (index : Index) :
  is_Some (rest index).1 → is_Some (tryKey guard key rest index).1.
Proof.
  intros Hrest. unfold tryKey. destruct guard; [|done].
  destruct (rest index) as [r ks].
  destruct (index !! key) as [id|]; [|done]. by destruct (truthy id).
Qed.

Lemma parentOf_level0 (l : Location) (c : string) (index : Index) :
  FEATURE_LEVELS !! featureCode l = Some 0 → parentOf l c index = None.
Proof.
  intros Hn. unfold parentOf. by rewrite determineParentForLocation_level0.
Qed.

Lemma parentOf_None_PCLI (l : Location) (c : string) (index : Index) :
  featureCode l = "PCLI" → parentOf l c index = None.
Proof. intros Hcode. apply parentOf_level0. by rewrite Hcode. Qed.

Lemma parentOf_level0_inv (l : Location) (c : string) (index : Index) :
  parentOf l c index = None → FEATURE_LEVELS !! featureCode l = Some 0.
Proof.
  unfold parentOf. intros Hnone.
  destruct (FEATURE_LEVELS !! featureCode l) as [n|] eqn:Hn.
  - destruct n as [|[|n]]; [done| |].
    + by rewrite determineParentForLocation_level1 in Hnone.
    + rewrite (determineParentForLocation_admin l c index _ Hn) in Hnone
        by lia.
      destruct (populated l (S (S n) - 1)); [|done].
      destruct (index !! adminKey l (S (S n) - 1)) as [id|]; [|done].
      by destruct (truthy id).
  - apply isAdminFeature_false in Hn.
    unfold determineParentForLocation in Hnone. rewrite Hn in Hnone.
    assert (Hsome : ∀ o : Parent, is_Some o → o = None → False)
      by (by intros o [? ->]).
    exfalso. eapply Hsome; [|exact Hnone].
    do 4 apply tryKey_is_Some. by eexists.
Qed.

(** X12. The resolver answers [null] for the rows coded PCLI and for no
    other row: every other record gets a parent id. *)
Theorem parentOf_None (l : Location) (c : string) (index : Index) :
  parentOf l c index = None ↔ featureCode l = "PCLI".
Proof.
  split.
  - intros Hnone%parentOf_level0_inv.
    apply FEATURE_LEVELS_Some in Hnone
      as [[? _]|[[_ ?]|[[_ ?]|[[_ ?]|[[_ ?]|[_ ?]]]]]]; done.
  - apply parentOf_None_PCLI.
Qed.

(** An ordinary place is resolved to the country or to the id stored
    under one of its populated chains. *)
Lemma ordinary_parent_chain (l : Location) (c : string) (index : Index)
    (p : string) :
  isAdminFeature (featureCode l) = false →
  parentOf l c index = Some p →
  p = c ∨ ∃ m, 1 ≤ m ≤ 4 ∧ populated l m = true ∧
               index !! adminKey l m = Some p.
Proof.
  intros Hadm. unfold parentOf, determineParentForLocation.
  rewrite Hadm. unfold tryKey, ret. simpl.
  destruct (truthy (admin1Code l)) eqn:H1, (truthy (admin2Code l)) eqn:H2,
    (truthy (admin3Code l)) eqn:H3, (truthy (admin4Code l)) eqn:H4; simpl;
    repeat match goal with
           | |- context [index !! ?k] =>
               let H := fresh "Hk" in
               destruct (index !! k) as [[|? ?]|] eqn:H; simpl
           end;
    intros [= <-]; try (by left);
    right;
    first [ exists 4; simpl; rewrite H1, H2, H3, H4; by repeat split; try lia
          | exists 3; simpl; rewrite H1, H2, H3; by repeat split; try lia
          | exists 2; simpl; rewrite H1, H2; by repeat split; try lia
          | exists 1; simpl; rewrite H1; by repeat split; try lia ].
Qed.

(** In a file of dot-free codes, a resolved parent is the country or a
    division of the file of a smaller level. *)
Lemma parentOf_shallower (c : string) (allLocations : list Location)
    (l : Location) (p : string) :
  Forall dotFree allLocations →
  l ∈ allLocations →
  parentOf l c (buildIndex allLocations) = Some p →
  1 ≤ getAdminLevel l ∧
  (p = c ∨ ∃ r, r ∈ allLocations ∧ geonameid r = p ∧
                1 ≤ getAdminLevel r < getAdminLevel l).
Proof.
  intros Hdots Hl Hp. rewrite Forall_forall in Hdots.
  assert (Hindexed : ∀ m, 1 ≤ m ≤ 4 →
            buildIndex allLocations !! adminKey l m = Some p →
            ∃ r, r ∈ allLocations ∧ geonameid r = p ∧ getAdminLevel r = m).
  { intros m Hm Hk.
    destruct (buildIndex_lookup_Some _ _ _ Hk)
      as (r & m' & Hr & Hd & Hkey & ->).
    apply indexedDepth_Some in Hd as (_ & Hrl & Hm' & _).
    exists r. repeat split; [done|].
    assert (Hcount : countDots (adminKey l m) = countDots (adminKey r m'))
      by (by rewrite Hkey).
    rewrite !countDots_adminKey in Hcount by auto. lia. }
  destruct (isAdminFeature (featureCode l)) eqn:Hadm.
  - apply isAdminFeature_true in Hadm as [n Hn].
    rewrite (getAdminLevel_admin _ _ Hn).
    pose proof (FEATURE_LEVELS_le _ _ Hn) as Hle. unfold parentOf in Hp.
    destruct n as [|[|n]].
    + by rewrite determineParentForLocation_level0 in Hp.
    + rewrite determineParentForLocation_level1 in Hp by done.
      injection Hp as <-. split; [lia|by left].
    + split; [lia|].
      rewrite (determineParentForLocation_admin l c _ _ Hn) in Hp by lia.
      destruct (populated l (S (S n) - 1)); [|injection Hp as <-; by left].
      destruct (buildIndex allLocations !! adminKey l (S (S n) - 1))
        as [id|] eqn:Hk; [|injection Hp as <-; by left].
      destruct (truthy id); injection Hp as <-; [|by left].
      right. destruct (Hindexed (S (S n) - 1)) as (r & Hr & Hid & Hrl);
        [lia|done|].
      exists r. repeat split; [done..|lia|lia].
  - destruct (getAdminLevel_ordinary l 0 Hadm) as [Hge _].
    split; [done|].
    destruct (ordinary_parent_chain _ _ _ _ Hadm Hp)
      as [->|(m & Hm & Hpop & Hk)]; [by left|right].
    destruct (Hindexed m Hm Hk) as (r & Hr & Hid & Hrl).
    destruct (getAdminLevel_ordinary l m Hadm) as [_ Hlt].
    exists r. repeat split; [done..|lia|]. rewrite Hrl. by apply Hlt.
Qed.

Lemma storedLevel_processLocations (c : string)
    (allLocations : list Location) (store : Store) (k : string) :
  storedLevel (processLocations c allLocations store) k =
    match last (filter (λ l, geonameid l = k) allLocations) with
    | Some l => Some (getAdminLevel l)
    | None => storedLevel store k
    end.
Proof.
  unfold storedLevel. rewrite processLocations_lookup_all. unfold written.
  destruct (last _); destruct (attached _ _ _ _); try done;
    by destruct (store !! k) as [[]|].
Qed.

Lemma storedParent_processLocations_all (c : string)
    (allLocations : list Location) (store : Store) (k : string) :
  storedParent (processLocations c allLocations store) k =
    match last (filter (λ l, geonameid l = k) allLocations) with
    | Some l => parentOf l c (buildIndex allLocations)
    | None => storedParent store k
    end.
Proof.
  unfold storedParent. rewrite processLocations_lookup_all. unfold written.
  destruct (last _); destruct (attached _ _ _ _); try done;
    by destruct (store !! k) as [[]|].
Qed.

Section Levels.
Context (c : string) (allLocations : list Location) (store : Store).
Context (Hnodup : NoDup (geonameid <$> allLocations)).
Context (Hdots : Forall dotFree allLocations).
Context (Hroot : storedLevel store c = Some 0).
Context (Hown : Forall (λ l, geonameid l = c → featureCode l = "PCLI")
                  allLocations).

Let after : Store := processLocations c allLocations store.

Lemma country_level_kept : storedLevel after c = Some 0.
Proof using Hroot Hown.
  unfold after. rewrite storedLevel_processLocations.
  destruct (last _) as [l|] eqn:Hlast; [|done].
  apply last_Some_elem_of, list_elem_of_filter in Hlast as [Hid Hl].
  rewrite Forall_forall in Hown. rewrite (getAdminLevel_admin l 0); [done|].
  by rewrite (Hown l Hl Hid).
Qed.

Lemma record_level_kept (l : Location) :
  l ∈ allLocations →
  storedLevel after (geonameid l) = Some (getAdminLevel l) ∧
  storedParent after (geonameid l) = parentOf l c (buildIndex allLocations).
Proof using Hnodup.
  intros Hl. unfold after.
  rewrite storedLevel_processLocations, storedParent_processLocations_all.
  by rewrite last_filter_NoDup.
Qed.

Lemma parent_level_smaller (l : Location) (p : string) :
  l ∈ allLocations →
  storedParent after (geonameid l) = Some p →
  1 ≤ getAdminLevel l ∧
  (p = c ∨ ∃ r, r ∈ allLocations ∧ geonameid r = p ∧
                getAdminLevel r < getAdminLevel l).
Proof using Hnodup Hdots.
  intros Hl Hp. destruct (record_level_kept l Hl) as [_ Hparent].
  rewrite Hparent in Hp.
  destruct (parentOf_shallower c allLocations l p Hdots Hl Hp)
    as [Hge [->|(r & Hr & Hid & Hlt)]]; (split; [done|]); [by left|right].
  exists r. repeat split; [done..|lia].
Qed.

Lemma climb_root (x : string) (hops : nat) :
  storedParent after x = None → climb after hops x = x.
Proof. intros Hx. destruct hops; simpl; [done|by rewrite Hx]. Qed.

Lemma climb_reaches_level0 (hops : nat) :
  storedParent store c = None →
  ∀ l, l ∈ allLocations → getAdminLevel l ≤ hops →
       storedLevel after (climb after hops (geonameid l)) = Some 0 ∧
       storedParent after (climb after hops (geonameid l)) = None.
Proof using Hnodup Hdots Hroot Hown.
  intros Hrootp.
  assert (Hc : storedParent after c = None).
  { unfold after. rewrite storedParent_processLocations_all.
    destruct (last _) as [r|] eqn:Hlast; [|done].
    apply last_Some_elem_of, list_elem_of_filter in Hlast as [Hid Hr].
    rewrite Forall_forall in Hown. apply parentOf_None_PCLI. by apply Hown. }
  induction hops as [|hops IH]; intros l Hl Hlevel.
  - destruct (record_level_kept l Hl) as [Hlev Hpar]. simpl.
    rewrite Hlev, Hpar. assert (getAdminLevel l = 0) as H0 by lia.
    rewrite H0. split; [done|].
    apply parentOf_level0, getAdminLevel_zero, H0.
  - simpl. destruct (storedParent after (geonameid l)) as [p|] eqn:Hp.
    + destruct (parent_level_smaller l p Hl Hp)
        as [Hge [->|(r & Hr & <- & Hlt)]].
      * rewrite climb_root by done. split; [apply country_level_kept|done].
      * apply IH; [done|lia].
    + destruct (record_level_kept l Hl) as [Hlev Hpar].
      split; [|done]. rewrite Hlev. f_equal.
      rewrite Hpar in Hp. apply parentOf_level0_inv in Hp.
      by apply getAdminLevel_admin.
Qed.

End Levels.

(** X13. In a file whose ids are pairwise distinct and whose codes hold
    no separator, processed over a store where the country's node has
    level 0, and where the row carrying the country's own id, if any, is
    coded PCLI: for a record whose feature code is not an inherited
    property name, the node stored for the record has the level the code
    computes for it, and the node stored for its parent has a level
    strictly below. *)
Theorem levels_decrease (c : string) (allLocations : list Location)
    (store : Store) (l : Location) (p : string) :
  NoDup (geonameid <$> allLocations) →
  Forall dotFree allLocations →
  storedLevel store c = Some 0 →
  Forall (λ l, geonameid l = c → featureCode l = "PCLI") allLocations →
  l ∈ allLocations →
  inheritedProperty (featureCode l) = false →
  let after := processLocations c allLocations store in
  storedParent after (geonameid l) = Some p →
  ∃ parentLevel,
    storedLevel after p = Some parentLevel ∧
    storedLevel after (geonameid l) = Some (getAdminLevel l) ∧
    Js.getAdminLevel l = Js.Number (getAdminLevel l) ∧
    parentLevel < getAdminLevel l.
Proof.
  intros Hnodup Hdots Hroot Hown Hl Hcode after Hp.
  destruct (record_level_kept c allLocations store Hnodup l Hl)
    as [Hlevel _].
  pose proof (Js_getAdminLevel_agrees l Hcode) as Hjs.
  destruct (parent_level_smaller c allLocations store Hnodup Hdots l p Hl Hp)
    as [Hge [->|(r & Hr & <- & Hlt)]].
  - exists 0. split; [by apply country_level_kept|]. repeat split; [done..|lia].
  - exists (getAdminLevel r). split; [|done].
    by apply (record_level_kept c allLocations store Hnodup r Hr).
Qed.

Lemma levels_decrease_witness :
  let after :=
    processLocations "6252001"
      [california; sanFranciscoCounty; goldenGatePark]
      (createCountryFiles [unitedStates] ∅) in
  ∃ parentLevel,
    storedLevel after "5332921" = Some parentLevel ∧
    storedLevel after "5391959" = Some 2 ∧
    Js.getAdminLevel sanFranciscoCounty = Js.Number 2 ∧
    parentLevel < 2.
Proof.
  apply (levels_decrease "6252001"
           [california; sanFranciscoCounty; goldenGatePark]
           (createCountryFiles [unitedStates] ∅) sanFranciscoCounty
           "5332921").
  - apply (bool_decide_unpack _). vm_compute. exact I.
  - repeat constructor.
  - vm_compute. reflexivity.
  - repeat constructor; discriminate.
  - set_solver.
  - reflexivity.
  - vm_compute. reflexivity.
Defined.

(** X14. Under the same conditions, and when the country's node has no
    parent, following the stored parent links from the node of any record
    arrives within five hops at a node of level 0 that has no parent. *)
Theorem parents_reach_root (c : string) (allLocations : list Location)
    (store : Store) (l : Location) :
  NoDup (geonameid <$> allLocations) →
  Forall dotFree allLocations →
  storedLevel store c = Some 0 →
  storedParent store c = None →
  Forall (λ l, geonameid l = c → featureCode l = "PCLI") allLocations →
  l ∈ allLocations →
  let after := processLocations c allLocations store in
  storedLevel after (climb after 5 (geonameid l)) = Some 0 ∧
  storedParent after (climb after 5 (geonameid l)) = None.
Proof.
  intros Hnodup Hdots Hroot Hrootp Hown Hl after.
  apply (climb_reaches_level0 c allLocations store Hnodup Hdots Hroot Hown
           5 Hrootp l Hl).
  apply getAdminLevel_le.
Qed.

Lemma parents_reach_root_witness :
  let after :=
    processLocations "3041565" [andorraRow; canillo]
      (createCountryFiles [andorra] ∅) in
  storedLevel after (climb after 5 "3041203") = Some 0 ∧
  storedParent after (climb after 5 "3041203") = None.
Proof.
  apply (parents_reach_root "3041565" [andorraRow; canillo]
           (createCountryFiles [andorra] ∅) canillo).
  - apply (bool_decide_unpack _). vm_compute. exact I.
  - repeat constructor.
  - vm_compute. reflexivity.
  - vm_compute. reflexivity.
  - repeat constructor; discriminate.
  - set_solver.
Defined.

(** ** createCountryFiles *)

Lemma createCountryFiles_snoc (countries : list Country.t)
    (country : Country.t) (store : Store) :
  createCountryFiles (countries ++ [country]) store =
    <[Country.geonameid country := NodeFile (countryNode country)]>
      (<[Country.iso country :=
           LookupFile (Country.geonameid country) (Country.name country)
             None]> (createCountryFiles countries store)).
Proof. unfold createCountryFiles. by rewrite fold_left_app. Qed.

Lemma createCountryFiles_frame (countries : list Country.t) (store : Store)
    (k : string) :
  Forall (λ country, k ≠ Country.iso country ∧
                     k ≠ Country.geonameid country) countries →
  createCountryFiles countries store !! k = store !! k.
Proof.
  induction countries as [|country countries IH] using rev_ind; [done|].
  rewrite Forall_app, Forall_singleton. intros [Hcs [Hiso Hid]].
  rewrite createCountryFiles_snoc, !lookup_insert_ne by done. by apply IH.
Qed.

(** X15. When the geoname ids of the table are pairwise distinct, its
    country codes are too, and no code is spelled like a geoname id of the
    table, [createCountryFiles] stores for every country a root node under
    its geoname id (that id, no parent, no children, level 0, the country
    attributes) and the record of its id and name under its code, and
    leaves every other file of the store as it was. *)
Theorem createCountryFiles_roots (countries : list Country.t)
    (store : Store) :
  NoDup (Country.geonameid <$> countries) →
  NoDup (Country.iso <$> countries) →
  (∀ a b, a ∈ countries → b ∈ countries →
          Country.iso a ≠ Country.geonameid b) →
  let after := createCountryFiles countries store in
  (∀ country, country ∈ countries →
     after !! Country.geonameid country =
       Some (NodeFile (countryNode country)) ∧
     after !! Country.iso country =
       Some (LookupFile (Country.geonameid country) (Country.name country)
               None)) ∧
  (∀ k, Forall (λ country, k ≠ Country.iso country ∧
                           k ≠ Country.geonameid country) countries →
        after !! k = store !! k).
Proof.
  intros Hids Hisos Hdisj after.
  split; [|intros k Hk; by apply createCountryFiles_frame].
  unfold after. clear after.
  induction countries as [|last countries IH] using rev_ind;
    [by intros ? ?%not_elem_of_nil|].
  rewrite fmap_app in Hids, Hisos. simpl in Hids, Hisos.
  apply NoDup_app in Hids as (Hids & Hlastid & _).
  apply NoDup_app in Hisos as (Hisos & Hlastiso & _).
  intros country Hcountry. rewrite createCountryFiles_snoc.
  apply elem_of_app in Hcountry as [Hcountry|Hcountry];
    [|apply list_elem_of_singleton in Hcountry as ->].
  - assert (Hid : Country.geonameid last ≠ Country.geonameid country).
    { intros Heq. apply (Hlastid (Country.geonameid country)).
      - by apply list_elem_of_fmap_2.
      - rewrite <- Heq. apply list_elem_of_here. }
    assert (Hiso : Country.iso last ≠ Country.iso country).
    { intros Heq. apply (Hlastiso (Country.iso country)).
      - by apply list_elem_of_fmap_2.
      - rewrite <- Heq. apply list_elem_of_here. }
    assert (Hlast : last ∈ countries ++ [last])
      by (apply elem_of_app; right; apply list_elem_of_here).
    assert (Hin : country ∈ countries ++ [last])
      by (apply elem_of_app; by left).
    assert (Hig : Country.iso last ≠ Country.geonameid country)
      by (by apply Hdisj).
    assert (Hgi : Country.geonameid last ≠ Country.iso country)
      by (by apply not_eq_sym, Hdisj).
    rewrite !lookup_insert_ne by done.
    apply IH; [done..| |done]. intros a b Ha Hb.
    apply Hdisj; apply elem_of_app; by left.
  - assert (Hlast : last ∈ countries ++ [last])
      by (apply elem_of_app; right; apply list_elem_of_here).
    split; [apply lookup_insert_eq|].
    rewrite lookup_insert_ne by (by apply not_eq_sym, Hdisj).
    apply lookup_insert_eq.
Qed.

Lemma createCountryFiles_roots_witness :
  createCountryFiles [andorra; puertoRico] ∅ !! "4566966" =
    Some (NodeFile (countryNode puertoRico)) ∧
  createCountryFiles [andorra; puertoRico] ∅ !! "PR" =
    Some (LookupFile "4566966" "Puerto Rico" None).
Proof.
  destruct (createCountryFiles_roots [andorra; puertoRico] ∅)
    as [Hroots _].
  - apply (bool_decide_unpack _). vm_compute. exact I.
  - apply (bool_decide_unpack _). vm_compute. exact I.
  - intros a b Ha Hb.
    assert (Hiso : Country.iso a = "AD" ∨ Country.iso a = "PR")
      by (set_unfold; destruct Ha as [->|[->|[]]]; auto).
    assert (Hid : Country.geonameid b = "3041565" ∨
                  Country.geonameid b = "4566966")
      by (set_unfold; destruct Hb as [->|[->|[]]]; auto).
    destruct Hiso as [->| ->], Hid as [->| ->]; discriminate.
  - apply (Hroots puertoRico).
    apply list_elem_of_further, list_elem_of_here.
Defined.

(** ** The data entry of an archive *)

Lemma endsWith_app (s t : string) : endsWith (s +:+ t) t = true.
Proof.
  induction s as [|a s IH].
  - change ("" +:+ t) with t.
    destruct t; [done|]. cbn [endsWith]. by rewrite String.eqb_refl.
  - change (String a s +:+ t) with (String a (s +:+ t)).
    cbn [endsWith]. rewrite IH. by destruct (String.eqb _ _).
Qed.

(** X16. The entry consumed as a country's data file, if any, belongs to
    the archive and has a name ending in [.txt]; it is a directory, or has
    [readme] in its name, only when it is named exactly [<code>.txt].
    No entry is consumed exactly when no entry of the archive qualifies. *)
Theorem findDataEntry_spec (iso : string) (zipEntries : list ZipEntry) :
  (∀ dataEntry, findDataEntry iso zipEntries = Some dataEntry →
     dataEntry ∈ zipEntries ∧
     endsWith (entryName dataEntry) ".txt" = true ∧
     (entryName dataEntry = iso +:+ ".txt" ∨
      (includes (entryName dataEntry) "readme" = false ∧
       isDirectory dataEntry = false))) ∧
  (findDataEntry iso zipEntries = None ↔
   Forall (λ entry, isDataEntry iso entry = false) zipEntries).
Proof.
  unfold findDataEntry. split.
  - intros dataEntry [Hin Hdata]%find_some.
    split; [by apply list_elem_of_In|].
    unfold isDataEntry in Hdata.
    apply orb_prop in Hdata as [Hname%String.eqb_eq|Hother].
    + rewrite Hname. split; [apply endsWith_app|by left].
    + apply andb_prop in Hother as [[Htxt Hreadme]%andb_prop Hdir].
      split; [done|]. right.
      by rewrite <- (negb_involutive (includes _ _)),
        <- (negb_involutive (isDirectory _)), Hreadme, Hdir.
  - split.
    + intros Hnone. apply Forall_forall. intros entry Hentry.
      by apply (find_none _ _ Hnone), list_elem_of_In.
    + intros Hall. induction Hall as [|entry entries Hentry _ IH]; [done|].
      simpl. by rewrite Hentry.
Qed.

(** ** main *)

(** X17. A whole run changes no file of the data directory but the
    manifest [countries.json], the files named after a country code or a
    geoname id of countryInfo.txt, and the files named after the id of a
    record of a data file it consumes. *)
Theorem main_frame (countryInfo : string)
    (raw : gmap string (list ZipEntry)) (store : Store) (k : string) :
  k ≠ "countries" →
  Forall (λ country,
            k ≠ Country.iso country ∧ k ≠ Country.geonameid country ∧
            ∀ zipEntries dataEntry,
              raw !! Country.iso country = Some zipEntries →
              findDataEntry (Country.iso country) zipEntries
                = Some dataEntry →
              Forall (λ l, geonameid l ≠ k)
                (parseLines (split newline (getData dataEntry))))
    (parseCountryInfo countryInfo) →
  main countryInfo raw store !! k = store !! k.
Proof.
  intros _. unfold main. generalize (parseCountryInfo countryInfo).
  intros countries Hall.
  rewrite <- (createCountryFiles_frame countries store k)
    by (eapply Forall_impl; [exact Hall|]; by intros ? (? & ? & _)).
  generalize (createCountryFiles countries store). intros created.
  revert created. induction Hall as [|country cs (_ & Hid & Hfile) _ IH];
    intros created; [done|].
  simpl. rewrite IH. unfold processCountryZip.
  destruct (raw !! Country.iso country) as [zipEntries|] eqn:Hraw; [|done].
  destruct (findDataEntry (Country.iso country) zipEntries)
    as [dataEntry|] eqn:Hfind; [|done].
  rewrite processLines_eq. apply processLocations_frame; [done|].
  by apply (Hfile zipEntries).
Qed.

Lemma main_frame_witness :
  main andorraInfo andorraRaw ∅ !! "4566966" = None.
Proof.
  rewrite (main_frame andorraInfo andorraRaw ∅ "4566966");
    [done|discriminate|].
  vm_compute parseCountryInfo. repeat constructor; try discriminate.
  intros zipEntries dataEntry Hraw Hfind.
  vm_compute in Hraw. injection Hraw as <-.
  vm_compute in Hfind. injection Hfind as <-.
  vm_compute. repeat constructor; discriminate.
Defined.

(** ** The index is complete, whatever the order of the file *)

Lemma fold_indexStep_keeps (after : list Location) (index : Index)
    (key : string) (r : Location) :
  indexedKey r = Some key →
  index !! key = Some (geonameid r) →
  ∃ r', (r' = r ∨ r' ∈ after) ∧ indexedKey r' = Some key ∧
        fold_left indexStep after index !! key = Some (geonameid r').
Proof.
  revert index r. induction after as [|a after IH]; intros index r Hr Hk.
  - exists r. auto.
  - simpl. rewrite indexStep_indexedKey.
    destruct (indexedKey a) as [ka|] eqn:Ha.
    + destruct (decide (ka = key)) as [->|Hne].
      * destruct (IH (<[key := geonameid a]> index) a Ha)
          as (r' & Hr' & Hkey & Hfold); [apply lookup_insert_eq|].
        exists r'. split; [|done]. right.
        destruct Hr' as [->|Hr']; [apply list_elem_of_here|].
        by apply list_elem_of_further.
      * destruct (IH (<[ka := geonameid a]> index) r Hr)
          as (r' & Hr' & Hkey & Hfold); [by rewrite lookup_insert_ne|].
        exists r'. split; [|done].
        destruct Hr' as [->|Hr']; [by left|].
        right. by apply list_elem_of_further.
    + destruct (IH index r Hr Hk) as (r' & Hr' & Hkey & Hfold).
      exists r'. split; [|done].
      destruct Hr' as [->|Hr']; [by left|].
      right. by apply list_elem_of_further.
Qed.

Lemma buildIndex_complete (allLocations : list Location) (r : Location)
    (key : string) :
  r ∈ allLocations →
  indexedKey r = Some key →
  ∃ r', r' ∈ allLocations ∧ indexedKey r' = Some key ∧
        buildIndex allLocations !! key = Some (geonameid r').
Proof.
  intros (before & after & ->)%list_elem_of_split Hkey.
  rewrite buildIndex_app. simpl.
  destruct (fold_indexStep_keeps after (indexStep (buildIndex before) r)
              key r Hkey) as (r' & Hr' & Hkey' & Hfold).
  { rewrite indexStep_indexedKey, Hkey. apply lookup_insert_eq. }
  exists r'. split; [|done].
  apply elem_of_app. right.
  destruct Hr' as [->|Hr']; [apply list_elem_of_here|].
  by apply list_elem_of_further.
Qed.

(** X18. The index misses no division: every record of the file with a
    recognized code, a level from 1 to 4 and its admin columns populated
    up to that level has its key in the index, where it maps to the id of
    a record of the file indexed under that same key. *)
Theorem indexed_division_found (allLocations : list Location)
    (r : Location) :
  r ∈ allLocations →
  isAdminFeature (featureCode r) = true →
  1 ≤ getAdminLevel r ≤ 4 →
  populated r (getAdminLevel r) = true →
  ∃ r', r' ∈ allLocations ∧
        indexedKey r' = Some (adminKey r (getAdminLevel r)) ∧
        buildIndex allLocations !! adminKey r (getAdminLevel r)
          = Some (geonameid r').
Proof.
  intros Hr Hadm Hlevel Hpop. apply (buildIndex_complete _ r); [done|].
  destruct Hlevel as [H1%Nat.leb_le H4%Nat.leb_le].
  unfold indexedKey, indexedDepth. cbv zeta.
  by rewrite Hadm, H1, H4, Hpop.
Qed.

Lemma indexed_division_found_witness :
  ∃ r', r' ∈ [sanFranciscoCounty; california] ∧
        indexedKey r' = Some (adminKey california (getAdminLevel california)) ∧
        buildIndex [sanFranciscoCounty; california]
          !! adminKey california (getAdminLevel california)
          = Some (geonameid r').
Proof.
  apply (indexed_division_found [sanFranciscoCounty; california] california).
  - apply list_elem_of_further, list_elem_of_here.
  - reflexivity.
  - vm_compute. lia.
  - reflexivity.
Defined.

(** X19. A division is resolved against the whole file, not against the
    lines read so far: when a division of level 2 to 5 has its admin
    columns populated up to its level minus one, and the file holds,
    before or after it, a record indexed under its key of that length,
    its parent is such a record, not the country.  Ids are non-empty. *)
Theorem division_parent_found (allLocations : list Location) (c : string)
    (l r : Location) (n : nat) :
  Forall (λ l, geonameid l ≠ "") allLocations →
  FEATURE_LEVELS !! featureCode l = Some n →
  2 ≤ n →
  populated l (n - 1) = true →
  r ∈ allLocations →
  indexedKey r = Some (adminKey l (n - 1)) →
  ∃ r', r' ∈ allLocations ∧
        indexedKey r' = Some (adminKey l (n - 1)) ∧
        parentOf l c (buildIndex allLocations) = Some (geonameid r').
Proof.
  intros Hids Hn Hge Hpop Hr Hkey.
  destruct (buildIndex_complete allLocations r _ Hr Hkey)
    as (r' & Hr' & Hkey' & Hlookup).
  exists r'. split; [done|]. split; [done|]. unfold parentOf.
  rewrite (determineParentForLocation_admin l c _ n Hn Hge), Hpop, Hlookup.
  rewrite Forall_forall in Hids.
  destruct (truthy (geonameid r')) eqn:Hid; [done|].
  apply truthy_false in Hid. by destruct (Hids r' Hr').
Qed.

Lemma division_parent_found_witness :
  ∃ r', r' ∈ [sanFranciscoCounty; california] ∧
        indexedKey r' = Some (adminKey sanFranciscoCounty (2 - 1)) ∧
        parentOf sanFranciscoCounty "6252001"
          (buildIndex [sanFranciscoCounty; california])
          = Some (geonameid r').
Proof.
  apply (division_parent_found [sanFranciscoCounty; california] "6252001"
           sanFranciscoCounty california 2).
  - repeat constructor; discriminate.
  - reflexivity.
  - lia.
  - reflexivity.
  - apply list_elem_of_further, list_elem_of_here.
  - reflexivity.
Defined.

(** ** The keys the resolver depends on *)

Lemma tryKey_ext (guard : bool) (key : string) (rest : Lookup Parent)
    (index index' : Index) :
  index !! key = index' !! key →
  (rest index).1 = (rest index').1 →
  (tryKey guard key rest index).1 = (tryKey guard key rest index').1.
Proof.
  intros Hkey Hrest. unfold tryKey. rewrite Hkey.
  destruct guard; [|done].
  destruct (rest index) as [r ks], (rest index') as [r' ks'].
  simpl in Hrest. subst r'.
  destruct (index' !! key) as [id|]; [|done]. by destruct (truthy id).
Qed.

(** X20. The parent returned for a record depends on the index through
    the record's own four composite keys only: two indexes that agree on
    those keys give the same parent, whatever else they hold.  This holds
    of the code on every feature code, inherited property names
    included. *)
Theorem parent_depends_on_own_keys (l : Location) (c : string)
    (index index' : Index) :
  Forall (λ key, index !! key = index' !! key) (ownKeys l) →
  (Js.determineParentForLocation l c index).1 =
    (Js.determineParentForLocation l c index').1.
Proof.
  unfold ownKeys. rewrite !Forall_cons. intros (H4 & H3 & H2 & H1 & _).
  unfold Js.determineParentForLocation.
  destruct (Js.featureLevel (featureCode l)) as [level|].
  - unfold Js.determineParent.
    destruct (Js.levelIs (Js.getAdminLevel l) 0); [done|].
    destruct (Js.levelIs (Js.getAdminLevel l) 1); [done|].
    by repeat apply tryKey_ext.
  - by repeat apply tryKey_ext.
Qed.

Lemma parent_depends_on_own_keys_witness :
  (Js.determineParentForLocation goldenGatePark "6252001"
     (buildIndex [california])).1 =
  (Js.determineParentForLocation goldenGatePark "6252001"
     (buildIndex [california; canillo])).1.
Proof.
  apply (parent_depends_on_own_keys goldenGatePark "6252001").
  repeat constructor.
Defined.

(** ** The country's node when its own row is absent *)

Lemma country_node_kept_witness :
  ∃ n', processLocations "6252001" usRecords
          (createCountryFiles [unitedStates] ∅) !! "6252001"
          = Some (NodeFile n') ∧
        Node.extra n' = CountryInfo "US" "USA" "Washington" "" "" "NA" "en-US".
Proof.
  destruct (country_node_kept "6252001" usRecords
              (createCountryFiles [unitedStates] ∅) (countryNode unitedStates))
    as (n' & Hnode & _ & _ & _ & _ & Hextra).
  - discriminate.
  - repeat constructor; discriminate.
  - vm_compute. reflexivity.
  - exists n'. split; [exact Hnode|]. rewrite Hextra. reflexivity.
Defined.
